(** * PostgresManager (postgres_da_ai_agent/modules/db.py)

    A shallow embedding of the [PostgresManager] class and of the parts of
    its environment it talks to: the psycopg2 connection and cursor objects,
    the catalog views its fixed SQL statements read, and [json.dumps].

    Conventions.
    - A Python [str] is a Rocq [string]; every character stands for the code
      point of the same number (0..255).
    - A method of the class is a computation in the monad [M]: it runs on a
      [World] (the manager object and the sequence of driver calls made so
      far) and ends in [Return v] or [Raise e].  A raised exception keeps
      the effects made before it, as in Python.
    - A psycopg2 handle is owned by the manager alone, so the state of the
      handle object is stored in the attribute that refers to it. *)

From Stdlib Require Import String Ascii List ZArith NArith Lia Bool.
From Stdlib Require Import DecimalString Permutation Sorted.
Import ListNotations.

Local Open Scope string_scope.
Local Open Scope list_scope.

(* ================================================================== *)
(** ** Exceptions and outcomes *)

Inductive exception : Type :=
| AttributeError (msg : string)     (* attribute access on [None] *)
| TypeError (msg : string)
| ValueError (msg : string)         (* a value the driver cannot adapt *)
| IndexError (msg : string)
| RecursionError
| OperationalError (msg : string)   (* psycopg2.connect refused *)
| InterfaceError (msg : string)     (* use of a closed handle *)
| ProgrammingError (msg : string)   (* fetch without a result set *)
| DatabaseError (msg : string)      (* the server rejected the statement *)
| UserException (tag : string).     (* raised by caller code in a scope *)

Inductive outcome (A : Type) : Type :=
| Return (a : A)
| Raise (e : exception).
Arguments Return {A} a.
Arguments Raise {A} e.

Definition is_return {A} (o : outcome A) : bool :=
  match o with Return _ => true | Raise _ => false end.

Definition obind {A B} (o : outcome A) (k : A -> outcome B) : outcome B :=
  match o with
  | Return a => k a
  | Raise e => Raise e
  end.

(** [for x in xs: acc = body(acc, x)] where the body may raise. *)
Fixpoint ofold {A S} (body : S -> A -> outcome S) (xs : list A) (acc : S)
  : outcome S :=
  match xs with
  | [] => Return acc
  | x :: rest => obind (body acc x) (ofold body rest)
  end.

(** [[f(x) for x in xs]] where [f] may raise. *)
Fixpoint omap {A B} (f : A -> outcome B) (xs : list A) : outcome (list B) :=
  match xs with
  | [] => Return []
  | x :: rest =>
      obind (f x) (fun y => obind (omap f rest) (fun ys => Return (y :: ys)))
  end.

(* ================================================================== *)
(** ** Python values carried by result rows *)

(** [datetime.datetime]; [utcoffset] is the offset of an aware value in
    seconds, [None] for a naive one. *)
Record datetime : Type := {
  year : nat; month : nat; day : nat;
  hour : nat; minute : nat; second : nat; microsecond : nat;
  utcoffset : option Z
}.

Record date : Type := { d_year : nat; d_month : nat; d_day : nat }.

Record time : Type := {
  t_hour : nat; t_minute : nat; t_second : nat; t_microsecond : nat;
  t_utcoffset : option Z
}.

(** A [float] is kept with the text [float.__repr__] gives for it. *)
Inductive pyfloat : Type :=
| FNaN | FInfinity | FNegInfinity
| FFinite (repr : string).

Set Warnings "-register-all".

(** The values psycopg2 hands back in a row.  [PObject ty text] is a value
    of any other class [ty] (Decimal, timedelta, UUID, memoryview, ...),
    kept with the text [str()] gives for it. *)
Inductive pyobj : Type :=
| PNone
| PBool (b : bool)
| PInt (z : Z)
| PFloat (f : pyfloat)
| PStr (s : string)
| PList (items : list pyobj)
| PDict (items : list (string * pyobj))
| PDatetime (d : datetime)
| PDate (d : date)
| PTime (t : time)
| PObject (class_name : string) (text : string).

(* ================================================================== *)
(** ** The psycopg2 objects and the server behind them *)

(** What comes of a statement: it is refused before it reaches the
    transaction (by the driver, or as an empty query), the server rejects it
    (which fails the open transaction), it returns no result set
    ([description] is [None]), or it returns the column names and the
    rows. *)
Inductive query_result : Type :=
| QRefused (e : exception)
| QError (e : exception)
| QNoResult
| QRows (columns : list string) (rows : list (list pyobj)).

(** [in_failed_transaction]: a statement failed in the open transaction
    (the manager never commits or rolls back), so the server refuses the
    statements that follow. *)
Record connection : Type := {
  dsn : string;
  conn_closed : bool;
  in_failed_transaction : bool
}.

Record cursor : Type := {
  cur_closed : bool;
  description : option (list string);
  pending : option (list (list pyobj))
}.

Inductive driver_call : Type :=
| CallConnect (url : string)
| CallCursor
| CallCursorClose
| CallConnectionClose
| CallExecute
| CallFetchall.

(** The manager object: [self.conn] and [self.cur]. *)
Record PostgresManager : Type := {
  conn : option connection;
  cur : option cursor
}.

Record World : Type := {
  self : PostgresManager;
  calls : list driver_call
}.

Definition M (A : Type) : Type := World -> outcome A * World.

Definition ret {A} (a : A) : M A := fun w => (Return a, w).
Definition raise {A} (e : exception) : M A := fun w => (Raise e, w).
Definition bind {A B} (m : M A) (k : A -> M B) : M B :=
  fun w => match m w with
           | (Return a, w') => k a w'
           | (Raise e, w') => (Raise e, w')
           end.
Definition lift {A} (o : outcome A) : M A := fun w => (o, w).

Declare Scope py_scope.
Delimit Scope py_scope with py.
Notation "x <- m ;; k" := (bind m (fun x => k))
  (at level 61, m at next level, right associativity) : py_scope.
Notation "m ;; k" := (bind m (fun _ => k))
  (at level 61, right associativity) : py_scope.
Local Open Scope py_scope.

Definition get_self : M PostgresManager := fun w => (Return (self w), w).
Definition set_conn (c : option connection) : M unit :=
  fun w => (Return tt, {| self := {| conn := c; cur := cur (self w) |};
                          calls := calls w |}).
Definition set_cur (c : option cursor) : M unit :=
  fun w => (Return tt, {| self := {| conn := conn (self w); cur := c |};
                          calls := calls w |}).
Definition log (c : driver_call) : M unit :=
  fun w => (Return tt, {| self := self w; calls := calls w ++ [c] |}).

(** The handle methods.  Closing marks the object closed; psycopg2 lets a
    closed cursor or connection be closed again and raises nothing. *)
Definition cursor_close (c : cursor) : cursor :=
  {| cur_closed := true; description := description c; pending := None |}.

Definition connection_close (c : connection) : connection :=
  {| dsn := dsn c; conn_closed := true;
     in_failed_transaction := in_failed_transaction c |}.

Definition new_cursor : cursor :=
  {| cur_closed := false; description := None; pending := None |}.

(* ================================================================== *)
(** ** The catalog the fixed statements read *)

(** One record per view or table named in the statements, with the columns
    the statements use.  The identifier columns are never NULL. *)
Record foreign_tables_row : Type := {
  foreign_table_schema : string;
  foreign_table_name : string
}.

Record pg_foreign_table_row : Type := { ftrelid : N }.

Record pg_attribute_row : Type := {
  attrelid : N;
  attname : string;
  atttypid : N;
  atttypmod : Z;
  attnum : Z
}.

Record pg_description_row : Type := {
  objoid : N;
  objsubid : Z;
  d_description : string
}.

Record foreign_table_constraints_row : Type := {
  ftc_foreign_table_schema : string;
  ftc_foreign_table_name : string;
  ftc_constraint_type : string;
  ftc_unique_constraint_schema : string;
  ftc_unique_constraint_name : string;
  ftc_referenced_table_schema : string;
  ftc_referenced_table_name : string
}.

Record table_constraints_row : Type := {
  tc_constraint_schema : string;
  tc_constraint_name : string;
  tc_table_name : string;
  tc_constraint_type : string
}.

Record constraint_column_usage_row : Type := {
  ccu_constraint_name : string
}.

(** [regclass_text oid] is [oid::regclass::text] in the session;
    [format_type] is the server function of that name.
    [plan_evaluates_subquery table] is the planner's choice for the first
    lookup of [get_related_tables]: whether the plan compares with the
    subquery on rows that the join or the schema condition discard. *)
Record Catalog : Type := {
  foreign_tables : list foreign_tables_row;
  pg_foreign_table : list pg_foreign_table_row;
  pg_attribute : list pg_attribute_row;
  pg_description : list pg_description_row;
  foreign_table_constraints : list foreign_table_constraints_row;
  table_constraints : list table_constraints_row;
  constraint_column_usage : list constraint_column_usage_row;
  regclass_text : N -> string;
  format_type : N -> Z -> string;
  plan_evaluates_subquery : string -> bool
}.

(** *** Relational operators, rows in scan order *)

Definition sql_join {A B} (l : list A) (r : list B) (on : A -> B -> bool)
  : list (A * B) :=
  flat_map (fun a => map (pair a) (filter (on a) r)) l.

Definition sql_left_join {A B} (l : list A) (r : list B) (on : A -> B -> bool)
  : list (A * option B) :=
  flat_map (fun a => match filter (on a) r with
                     | [] => [(a, None)]
                     | matches => map (fun b => (a, Some b)) matches
                     end) l.

Definition sql_where {A} (p : A -> bool) (l : list A) : list A := filter p l.

Fixpoint sql_insert {A} (le : A -> A -> bool) (x : A) (l : list A) : list A :=
  match l with
  | [] => [x]
  | y :: rest => if le x y then x :: l else y :: sql_insert le x rest
  end.

(** ORDER BY: rows with equal keys keep their scan order. *)
Definition sql_order_by {A} (le : A -> A -> bool) (l : list A) : list A :=
  fold_right (sql_insert le) [] l.

(** The largest [bigint] of the server. *)
Definition bigint_max : Z := 9223372036854775807.

(** The count of a LIMIT: a [bigint]; the server rejects a literal outside
    the range of the type and a negative count, before it reads a row. *)
Definition sql_limit_count (n : Z) : outcome Z :=
  if (n <? - bigint_max - 1)%Z || (bigint_max <? n)%Z
  then Raise (DatabaseError "bigint out of range")
  else if (n <? 0)%Z
  then Raise (DatabaseError "LIMIT must not be negative")
  else Return n.

(** The first [count] rows. *)
Fixpoint sql_take {A} (count : Z) (l : list A) : list A :=
  match l with
  | [] => []
  | x :: rest =>
      if (count <=? 0)%Z then [] else x :: sql_take (count - 1) rest
  end.

(** LIMIT n *)
Definition sql_limit {A} (n : Z) (l : list A) : outcome (list A) :=
  obind (sql_limit_count n) (fun count => Return (sql_take count l)).

(** A subquery used as an expression: NULL for no row, an error for more
    than one. *)
Definition sql_scalar {A} (l : list A) : outcome (option A) :=
  match l with
  | [] => Return None
  | [x] => Return (Some x)
  | _ => Raise (DatabaseError
                  "more than one row returned by a subquery used as an expression")
  end.

Definition string_ltb (a b : string) : bool :=
  match String.compare a b with Lt => true | _ => false end.

(* ================================================================== *)
(** ** The statements of the source, as queries on the catalog *)

Definition akeyless : string := "akeyless".

(** The select list of [get_def_stmt], one record per result row. *)
Record def_row : Type := {
  schema_name : string;
  table_name : string;
  column_name : string;
  column_type : string;
  column_description : option string;
  column_attnum : Z                    (* sort key only, not selected *)
}.

Definition def_row_le (x y : def_row) : bool :=
  string_ltb (schema_name x) (schema_name y)
  || (String.eqb (schema_name x) (schema_name y)
      && (string_ltb (table_name x) (table_name y)
          || (String.eqb (table_name x) (table_name y)
              && (column_attnum x <=? column_attnum y)%Z))).

(** FROM information_schema.foreign_tables ft
    JOIN pg_foreign_table pft
      ON ft.foreign_table_name = pft.ftrelid::regclass::text
    JOIN pg_attribute a ON a.attrelid = pft.ftrelid
    LEFT JOIN pg_description d
      ON a.attrelid = d.objoid AND a.attnum = d.objsubid *)
Definition get_def_from (c : Catalog)
  : list (foreign_tables_row * pg_foreign_table_row * pg_attribute_row
          * option pg_description_row) :=
  sql_left_join
    (sql_join
       (sql_join (foreign_tables c) (pg_foreign_table c)
          (fun ft pft =>
             String.eqb (foreign_table_name ft) (regclass_text c (ftrelid pft))))
       (pg_attribute c)
       (fun l a => N.eqb (attrelid a) (ftrelid (snd l))))
    (pg_description c)
    (fun l d => N.eqb (attrelid (snd l)) (objoid d)
                && Z.eqb (attnum (snd l)) (objsubid d)).

(** WHERE ft.foreign_table_schema = 'akeyless' AND a.attnum > 0 *)
Definition get_def_where
  (r : foreign_tables_row * pg_foreign_table_row * pg_attribute_row
       * option pg_description_row) : bool :=
  let '(ft, _, a, _) := r in
  String.eqb (foreign_table_schema ft) akeyless && (attnum a >? 0)%Z.

Definition get_def_select (c : Catalog)
  (r : foreign_tables_row * pg_foreign_table_row * pg_attribute_row
       * option pg_description_row) : def_row :=
  let '(ft, _, a, d) := r in
  {| schema_name := foreign_table_schema ft;
     table_name := foreign_table_name ft;
     column_name := attname a;
     column_type := format_type c (atttypid a) (atttypmod a);
     column_description := option_map d_description d;
     column_attnum := attnum a |}.

(** The statement of [get_table_definition].  Its text holds no
    placeholder, so the argument tuple passed with it binds nowhere: the
    rows do not depend on it. *)
Definition get_def_stmt (c : Catalog) (args : list pyobj) : list def_row :=
  sql_order_by def_row_le
    (map (get_def_select c) (sql_where get_def_where (get_def_from c))).

(** The row tuple the cursor returns for a [def_row]. *)
Definition def_row_tuple (r : def_row) : list pyobj :=
  [ PStr (schema_name r); PStr (table_name r); PStr (column_name r);
    PStr (column_type r);
    match column_description r with Some s => PStr s | None => PNone end ].

(** SELECT foreign_table_name FROM information_schema.foreign_tables
    WHERE foreign_table_schema = 'akeyless'; *)
Definition get_all_tables_stmt (c : Catalog) : list string :=
  map foreign_table_name
    (sql_where (fun ft => String.eqb (foreign_table_schema ft) akeyless)
       (foreign_tables c)).

(** The subquery of the first lookup: the names of the FOREIGN KEY
    constraints of [table] in schema akeyless, once per column usage. *)
Definition referencing_subquery (c : Catalog) (table : string) : list string :=
  map (fun r => tc_constraint_name (fst r))
    (sql_where
       (fun r => String.eqb (tc_constraint_schema (fst r)) akeyless
                 && String.eqb (tc_table_name (fst r)) table
                 && String.eqb (tc_constraint_type (fst r)) "FOREIGN KEY")
       (sql_join (table_constraints c) (constraint_column_usage c)
          (fun tc ccu =>
             String.eqb (ccu_constraint_name ccu) (tc_constraint_name tc)))).

(** The rows of the first lookup that reach the comparison with the
    subquery: the joined rows whose unique-constraint schema is akeyless. *)
Definition referencing_candidates (c : Catalog)
  : list (foreign_table_constraints_row * foreign_tables_row) :=
  sql_where
    (fun r => String.eqb (ftc_unique_constraint_schema (fst r)) akeyless)
    (sql_join (foreign_table_constraints c) (foreign_tables c)
       (fun ftc ft =>
          String.eqb (foreign_table_name ft) (ftc_foreign_table_name ftc)
          && String.eqb (foreign_table_schema ft)
               (ftc_foreign_table_schema ftc))).

(** The server evaluates the subquery when a row is first compared with
    it: never under LIMIT 0, always when a candidate row exists, and
    otherwise as the plan has it. *)
Definition subquery_evaluated (c : Catalog) (table : string) : bool :=
  match referencing_candidates c with
  | [] => plan_evaluates_subquery c table
  | _ => true
  end.

(** First lookup of [get_related_tables] (foreign tables that have
    foreign keys referencing the given one), with [(table, n)] bound. *)
Definition referencing_stmt (c : Catalog) (table : string) (n : Z)
  : outcome (list string) :=
  obind (sql_limit_count n) (fun count =>
  if (count =? 0)%Z
  then Return []
  else
    obind (if subquery_evaluated c table
           then sql_scalar (referencing_subquery c table)
           else Return None) (fun name =>
    Return
      (sql_take count
         (map (fun r => foreign_table_name (snd r))
            (sql_where
               (fun r => match name with
                         | Some k =>
                             String.eqb (ftc_unique_constraint_name (fst r)) k
                         | None => false
                         end)
               (referencing_candidates c)))))).

(** Second lookup (foreign tables the given one references). *)
Definition referenced_stmt (c : Catalog) (table : string) (n : Z)
  : outcome (list string) :=
  sql_limit n
    (map (fun r => foreign_table_name (snd r))
       (sql_where
          (fun r => String.eqb (ftc_foreign_table_schema (fst r)) akeyless
                    && String.eqb (ftc_foreign_table_name (fst r)) table
                    && String.eqb (ftc_constraint_type (fst r)) "FOREIGN KEY")
          (sql_join (foreign_table_constraints c) (foreign_tables c)
             (fun ftc ft =>
                String.eqb (foreign_table_name ft) (ftc_referenced_table_name ftc)
                && String.eqb (foreign_table_schema ft)
                     (ftc_referenced_table_schema ftc))))).

(** The column names of the result of [get_def_stmt]. *)
Definition get_def_columns : list string :=
  ["schema_name"; "table_name"; "column_name"; "column_type";
   "column_description"].

(** What [cursor.execute] is called with. *)
Inductive statement : Type :=
| StmtGetDef (args : list pyobj)
| StmtGetAllTables
| StmtReferencing (table : string) (n : Z)
| StmtReferenced (table : string) (n : Z)
| StmtRaw (sql : string).

(** The environment at the time of a call: which URLs the driver can
    parse as a connection string, which of them the server accepts, the
    catalog, what comes of the caller's own SQL text, and which SQL texts
    end a failed transaction (ROLLBACK, COMMIT and the like), the only
    statements the server takes in that state. *)
Record Server : Type := {
  valid_dsn : string -> bool;
  accepts : string -> bool;
  catalog : Catalog;
  answer : string -> query_result;
  ends_transaction : string -> bool
}.

(** The string holds the character of code 0. *)
Fixpoint has_nul (s : string) : bool :=
  match s with
  | EmptyString => false
  | String c rest => Nat.eqb (nat_of_ascii c) 0 || has_nul rest
  end.

(** What the driver raises when it is to bind a [str] with that
    character. *)
Definition nul_error : exception :=
  ValueError "A string literal cannot contain NUL (0x00) characters.".

Definition name_rows (o : outcome (list string)) (column : string)
  : query_result :=
  match o with
  | Return names => QRows [column] (map (fun s => [PStr s]) names)
  | Raise e => QError e
  end.

Definition server_eval (srv : Server) (stmt : statement) : query_result :=
  match stmt with
  | StmtGetDef args =>
      QRows get_def_columns
        (map def_row_tuple (get_def_stmt (catalog srv) args))
  | StmtGetAllTables =>
      name_rows (Return (get_all_tables_stmt (catalog srv))) "foreign_table_name"
  | StmtReferencing t n =>
      if has_nul t then QRefused nul_error
      else name_rows (referencing_stmt (catalog srv) t n) "table_name"
  | StmtReferenced t n =>
      if has_nul t then QRefused nul_error
      else name_rows (referenced_stmt (catalog srv) t n) "referenced_table_name"
  | StmtRaw sql => answer srv sql
  end.

(** The statement is one the server takes in a failed transaction. *)
Definition ends_failed_transaction (srv : Server) (stmt : statement) : bool :=
  match stmt with
  | StmtRaw sql => ends_transaction srv sql
  | _ => false
  end.

(* ================================================================== *)
(** ** Driver calls on the manager's handles *)

(** [psycopg2.connect(url)]: a string that is no connection string is
    refused by the driver, a well-formed one may be refused by the server. *)
Definition psycopg2_connect (srv : Server) (url : string) : M connection :=
  log (CallConnect url) ;;
  if negb (valid_dsn srv url)
  then raise (ProgrammingError "invalid dsn")
  else if accepts srv url
  then ret {| dsn := url; conn_closed := false; in_failed_transaction := false |}
  else raise (OperationalError "could not connect to server").

(** [self.conn.cursor()] *)
Definition conn_cursor : M cursor :=
  s <- get_self ;;
  match conn s with
  | None => raise (AttributeError "'NoneType' object has no attribute 'cursor'")
  | Some c =>
      log CallCursor ;;
      if conn_closed c
      then raise (InterfaceError "connection already closed")
      else ret new_cursor
  end.

Definition set_failed (failed : bool) : M unit :=
  s <- get_self ;;
  match conn s with
  | Some c => set_conn (Some {| dsn := dsn c; conn_closed := conn_closed c;
                                in_failed_transaction := failed |})
  | None => ret tt
  end.

Definition mark_failed : M unit := set_failed true.

(** [self.cur.execute(stmt, args)] *)
Definition cur_execute (srv : Server) (stmt : statement) : M unit :=
  s <- get_self ;;
  match cur s with
  | None => raise (AttributeError "'NoneType' object has no attribute 'execute'")
  | Some c =>
      log CallExecute ;;
      if cur_closed c
         || match conn s with Some k => conn_closed k | None => false end
      then raise (InterfaceError "cursor already closed")
      else
        match server_eval srv stmt with
        | QRefused e => raise e
        | reply =>
            if match conn s with
               | Some k => in_failed_transaction k
               | None => false
               end
            then
              if ends_failed_transaction srv stmt
              then
                set_cur (Some {| cur_closed := false; description := None;
                                 pending := None |}) ;;
                set_failed false
              else raise (DatabaseError "current transaction is aborted")
            else
              match reply with
              | QRefused e => raise e
              | QError e =>
                  set_cur (Some {| cur_closed := false; description := None;
                                   pending := None |}) ;;
                  mark_failed ;;
                  raise e
              | QNoResult =>
                  set_cur (Some {| cur_closed := false; description := None;
                                   pending := None |})
              | QRows columns rows =>
                  set_cur (Some {| cur_closed := false;
                                   description := Some columns;
                                   pending := Some rows |})
              end
        end
  end.

(** [self.cur.description] *)
Definition cur_description : M (option (list string)) :=
  s <- get_self ;;
  match cur s with
  | None =>
      raise (AttributeError "'NoneType' object has no attribute 'description'")
  | Some c => ret (description c)
  end.

(** [self.cur.fetchall()] *)
Definition cur_fetchall : M (list (list pyobj)) :=
  s <- get_self ;;
  match cur s with
  | None => raise (AttributeError "'NoneType' object has no attribute 'fetchall'")
  | Some c =>
      log CallFetchall ;;
      if cur_closed c
      then raise (InterfaceError "cursor already closed")
      else match pending c with
           | None => raise (ProgrammingError "no results to fetch")
           | Some rows =>
               set_cur (Some {| cur_closed := false;
                                description := description c;
                                pending := Some [] |}) ;;
               ret rows
           end
  end.

(* ================================================================== *)
(** ** PostgresManager: the connection life cycle *)

(** [__init__]: the attributes of a new manager. *)
Definition __init__ : PostgresManager := {| conn := None; cur := None |}.

Definition new_world : World := {| self := __init__; calls := [] |}.

(** [__enter__] returns [self]. *)
Definition __enter__ : M PostgresManager := get_self.

(** [if self.cur: self.cur.close()].  A handle object is true, [None] is
    false. *)
Definition close_cur_if_present : M unit :=
  s <- get_self ;;
  match cur s with
  | Some c => log CallCursorClose ;; set_cur (Some (cursor_close c))
  | None => ret tt
  end.

(** [if self.conn: self.conn.close()] *)
Definition close_conn_if_present : M unit :=
  s <- get_self ;;
  match conn s with
  | Some c => log CallConnectionClose ;; set_conn (Some (connection_close c))
  | None => ret tt
  end.

(** [__exit__] has no [return]: it returns [None]. *)
Definition __exit__ (exc_val : option exception) : M pyobj :=
  close_cur_if_present ;;
  close_conn_if_present ;;
  ret PNone.

Definition connect_with_url (srv : Server) (url : string) : M unit :=
  c <- psycopg2_connect srv url ;;
  set_conn (Some c) ;;
  k <- conn_cursor ;;
  set_cur (Some k).

Definition close : M unit :=
  close_cur_if_present ;;
  close_conn_if_present.

(** Truth value of the object [__exit__] returns. *)
Definition truthy (v : pyobj) : bool :=
  match v with
  | PNone => false
  | PBool b => b
  | PInt z => negb (z =? 0)%Z
  | PFloat (FFinite r) => negb (String.eqb r "0.0" || String.eqb r "-0.0")
  | PFloat _ => true
  | PStr s => negb (String.eqb s "")
  | PList l => match l with [] => false | _ => true end
  | PDict l => match l with [] => false | _ => true end
  | _ => true
  end.

(** [with manager as target: body].  The scope ends with [Some v] when the
    body returned [v], with [None] when the body raised and [__exit__]
    returned a true value (the exception is dropped), and raises otherwise. *)
Definition with_scope {A} (body : PostgresManager -> M A) : M (option A) :=
  fun w =>
    match __enter__ w with
    | (Raise e, w1) => (Raise e, w1)
    | (Return target, w1) =>
        match body target w1 with
        | (Return v, w2) =>
            match __exit__ None w2 with
            | (Return _, w3) => (Return (Some v), w3)
            | (Raise e, w3) => (Raise e, w3)
            end
        | (Raise e, w2) =>
            match __exit__ (Some e) w2 with
            | (Return r, w3) =>
                if truthy r then (Return None, w3) else (Raise e, w3)
            | (Raise e', w3) => (Raise e', w3)
            end
        end
    end.

(* ================================================================== *)
(** ** Python strings *)

Definition newline : string := String (ascii_of_nat 10) EmptyString.
Definition dquote : string := String (ascii_of_nat 34) EmptyString.
Definition backslash : string := String (ascii_of_nat 92) EmptyString.

Fixpoint char_in (c : ascii) (chars : string) : bool :=
  match chars with
  | EmptyString => false
  | String d rest => Ascii.eqb c d || char_in c rest
  end.

(** [s.rstrip(chars)]: drop the longest suffix made of characters of
    [chars]. *)
Fixpoint rstrip (chars : string) (s : string) : string :=
  match s with
  | EmptyString => EmptyString
  | String c rest =>
      match rstrip chars rest with
      | EmptyString => if char_in c chars then EmptyString
                       else String c EmptyString
      | kept => String c kept
      end
  end.

(** [sep.join(parts)] *)
Definition join (sep : string) (parts : list string) : string :=
  String.concat sep parts.

Fixpoint repeat_string (s : string) (n : nat) : string :=
  match n with
  | O => EmptyString
  | S k => s ++ repeat_string s k
  end.

Definition nat_repr (n : nat) : string :=
  NilEmpty.string_of_uint (Nat.to_uint n).

(** [int.__repr__] *)
Definition int_repr (z : Z) : string := NilZero.string_of_int (Z.to_int z).

(** ["%0<width>d" % n] *)
Definition zero_pad (width n : nat) : string :=
  let digits := nat_repr n in
  repeat_string "0" (width - String.length digits) ++ digits.

(** The UTC offset suffix of [isoformat]. *)
Definition format_offset (off : option Z) : string :=
  match off with
  | None => EmptyString
  | Some z =>
      let a := Z.to_nat (Z.abs z) in
      (if (z <? 0)%Z then "-" else "+")
      ++ zero_pad 2 (a / 3600) ++ ":" ++ zero_pad 2 ((a mod 3600) / 60)
      ++ (if Nat.eqb (a mod 60) 0 then EmptyString
          else ":" ++ zero_pad 2 (a mod 60))
  end.

Definition format_time (h m s us : nat) : string :=
  zero_pad 2 h ++ ":" ++ zero_pad 2 m ++ ":" ++ zero_pad 2 s
  ++ (if Nat.eqb us 0 then EmptyString else "." ++ zero_pad 6 us).

(** [date.isoformat()] *)
Definition date_isoformat (d : date) : string :=
  zero_pad 4 (d_year d) ++ "-" ++ zero_pad 2 (d_month d) ++ "-"
  ++ zero_pad 2 (d_day d).

(** [time.isoformat()] *)
Definition time_isoformat (t : time) : string :=
  format_time (t_hour t) (t_minute t) (t_second t) (t_microsecond t)
  ++ format_offset (t_utcoffset t).

(** [datetime.isoformat(sep)] *)
Definition datetime_isoformat_sep (sep : string) (d : datetime) : string :=
  zero_pad 4 (year d) ++ "-" ++ zero_pad 2 (month d) ++ "-"
  ++ zero_pad 2 (day d) ++ sep
  ++ format_time (hour d) (minute d) (second d) (microsecond d)
  ++ format_offset (utcoffset d).

(** [obj.isoformat()] of a [datetime]: the separator is [T]. *)
Definition isoformat (d : datetime) : string := datetime_isoformat_sep "T" d.

Definition float_repr (f : pyfloat) : string :=
  match f with
  | FNaN => "nan"
  | FInfinity => "inf"
  | FNegInfinity => "-inf"
  | FFinite r => r
  end.

(** Python dictionaries keep the position of the first insertion of a key
    and the value of the last. *)
Fixpoint dict_set {V} (d : list (string * V)) (k : string) (v : V)
  : list (string * V) :=
  match d with
  | [] => [(k, v)]
  | (k', v') :: rest =>
      if String.eqb k k' then (k', v) :: rest
      else (k', v') :: dict_set rest k v
  end.

Fixpoint dict_get {V} (d : list (string * V)) (k : string) : option V :=
  match d with
  | [] => None
  | (k', v') :: rest => if String.eqb k k' then Some v' else dict_get rest k
  end.

(** [dict(pairs)] *)
Definition dict_of {V} (pairs : list (string * V)) : list (string * V) :=
  fold_left (fun d kv => dict_set d (fst kv) (snd kv)) pairs [].

(** [seq[i]] *)
Definition getitem {A} (seq : list A) (i : nat) : outcome A :=
  match nth_error seq i with
  | Some x => Return x
  | None => Raise (IndexError "tuple index out of range")
  end.

(* ================================================================== *)
(** ** json.dumps(obj, indent=4, default=...) *)

Definition hex_digit (n : nat) : string :=
  String.substring n 1 "0123456789abcdef".

(** One character under [ensure_ascii]: the pattern escapes the backslash,
    the double quote and everything outside space..tilde. *)
Definition escape_char (c : ascii) : string :=
  let n := nat_of_ascii c in
  if Nat.eqb n 34 then backslash ++ dquote
  else if Nat.eqb n 92 then backslash ++ backslash
  else if Nat.eqb n 10 then backslash ++ "n"
  else if Nat.eqb n 13 then backslash ++ "r"
  else if Nat.eqb n 9 then backslash ++ "t"
  else if Nat.eqb n 8 then backslash ++ "b"
  else if Nat.eqb n 12 then backslash ++ "f"
  else if Nat.leb 32 n && Nat.leb n 126 then String c EmptyString
  else backslash ++ "u00" ++ hex_digit (n / 16) ++ hex_digit (n mod 16).

Fixpoint escape_string (s : string) : string :=
  match s with
  | EmptyString => EmptyString
  | String c rest => escape_char c ++ escape_string rest
  end.

(** [encode_basestring_ascii]: the JSON string for a Python [str]. *)
Definition encode_basestring_ascii (s : string) : string :=
  dquote ++ escape_string s ++ dquote.

(** [_floatstr] with [allow_nan] *)
Definition floatstr (f : pyfloat) : string :=
  match f with
  | FNaN => "NaN"
  | FInfinity => "Infinity"
  | FNegInfinity => "-Infinity"
  | FFinite r => r
  end.

Definition newline_indent (lvl : nat) : string :=
  newline ++ repeat_string "    " lvl.

(** [_iterencode_list]; [enc] encodes an item at a given level. *)
Definition iterencode_list (enc : nat -> pyobj -> outcome string)
  (lvl : nat) (lst : list pyobj) : outcome string :=
  match lst with
  | [] => Return "[]"
  | _ =>
      obind (omap (enc (S lvl)) lst) (fun chunks =>
      Return ("[" ++ newline_indent (S lvl)
              ++ join ("," ++ newline_indent (S lvl)) chunks
              ++ newline_indent lvl ++ "]")%string)
  end.

(** [_iterencode_dict] for [str] keys, in insertion order. *)
Definition iterencode_dict (enc : nat -> pyobj -> outcome string)
  (lvl : nat) (dct : list (string * pyobj)) : outcome string :=
  match dct with
  | [] => Return "{}"
  | _ =>
      obind (omap (fun kv =>
                     obind (enc (S lvl) (snd kv)) (fun chunk =>
                     Return (encode_basestring_ascii (fst kv) ++ ": "
                             ++ chunk)%string))
               dct) (fun chunks =>
      Return ("{" ++ newline_indent (S lvl)
              ++ join ("," ++ newline_indent (S lvl)) chunks
              ++ newline_indent lvl ++ "}")%string)
  end.

(** [_iterencode]: the types JSON knows are written directly; any other
    object goes through [default] and the result is encoded in its place.
    [fuel] bounds the depth of the calls. *)
Fixpoint iterencode (fuel : nat) (default : pyobj -> outcome pyobj)
  (lvl : nat) (o : pyobj) : outcome string :=
  match fuel with
  | O => Raise RecursionError
  | S k =>
      match o with
      | PStr s => Return (encode_basestring_ascii s)
      | PNone => Return "null"
      | PBool true => Return "true"
      | PBool false => Return "false"
      | PInt z => Return (int_repr z)
      | PFloat f => Return (floatstr f)
      | PList lst => iterencode_list (iterencode k default) lvl lst
      | PDict dct => iterencode_dict (iterencode k default) lvl dct
      | _ => obind (default o) (iterencode k default lvl)
      end
  end.

Definition dumps (fuel : nat) (default : pyobj -> outcome pyobj) (obj : pyobj)
  : outcome string :=
  iterencode fuel default 0 obj.

(** The encoder without a [default] function. *)
Definition no_default (o : pyobj) : outcome pyobj :=
  Raise (TypeError "Object is not JSON serializable").

(** The types [json] writes without calling [default]. *)
Definition json_native (o : pyobj) : bool :=
  match o with
  | PNone | PBool _ | PInt _ | PFloat _ | PStr _ | PList _ | PDict _ => true
  | _ => false
  end.

(** [isinstance(obj, datetime)] *)
Definition is_datetime (o : pyobj) : bool :=
  match o with PDatetime _ => true | _ => false end.

(** Nesting depth of a value. *)
Fixpoint depth (o : pyobj) : nat :=
  match o with
  | PList lst => S (fold_right (fun x m => Nat.max (depth x) m) 0 lst)
  | PDict dct => S (fold_right (fun kv m => Nat.max (depth (snd kv)) m) 0 dct)
  | _ => 0
  end.

(** Every value inside is of a type JSON knows. *)
Fixpoint all_native (o : pyobj) : bool :=
  match o with
  | PList lst => forallb all_native lst
  | PDict dct => forallb (fun kv => all_native (snd kv)) dct
  | o => json_native o
  end.

(* ================================================================== *)
(** ** PostgresManager: queries *)

(** [for x in xs: acc = body(acc, x)] where the body has effects. *)
Fixpoint fold_m {A S} (body : S -> A -> M S) (xs : list A) (acc : S) : M S :=
  match xs with
  | [] => ret acc
  | x :: rest => acc' <- body acc x ;; fold_m body rest acc'
  end.

(** A cell of a name column, read as the [str] it is; a cell of another
    type does not come out of the statements of this class. *)
Definition name_cell (row : list pyobj) : outcome string :=
  obind (getitem row 0) (fun v =>
  match v with
  | PStr s => Return s
  | _ => Raise (TypeError "name column is not a str")
  end).

Section Runtime.

(** [str()] of a list or a dict is its [repr()], which is left open. *)
Variable container_str : pyobj -> string.

(** [list(set(xs))]: the distinct elements in the iteration order of the
    set, which depends on the hashes of the strings. *)
Variable list_of_set : list string -> list string.

(** [str(obj)] *)
Definition py_str (obj : pyobj) : string :=
  match obj with
  | PNone => "None"
  | PBool true => "True"
  | PBool false => "False"
  | PInt z => int_repr z
  | PFloat f => float_repr f
  | PStr s => s
  | PList _ | PDict _ => container_str obj
  | PDatetime d => datetime_isoformat_sep " " d
  | PDate d => date_isoformat d
  | PTime t => time_isoformat t
  | PObject _ text => text
  end.

Definition datetime_handler (obj : pyobj) : outcome pyobj :=
  match obj with
  | PDatetime d => Return (PStr (isoformat d))
  | _ => Return (PStr (py_str obj))
  end.

(** The value the specification describes in place of [obj]: a datetime
    gives its ISO-8601 text, a value of a type JSON knows stays as it is
    (its items treated likewise), any other value gives its text. *)
Fixpoint spec_json_value (obj : pyobj) : pyobj :=
  match obj with
  | PDatetime d => PStr (isoformat d)
  | PNone | PBool _ | PInt _ | PFloat _ | PStr _ => obj
  | PList lst => PList (map spec_json_value lst)
  | PDict dct => PDict (map (fun kv => (fst kv, spec_json_value (snd kv))) dct)
  | PDate _ | PTime _ | PObject _ _ => PStr (py_str obj)
  end.

(** The object [run_sql] hands to [json.dumps]: the list of the row
    dictionaries. *)
Definition dumps_argument (columns : list string) (res : list (list pyobj))
  : pyobj :=
  PList (map PDict (map (fun row => dict_of (combine columns row)) res)).

(** [fuel] bounds the depth of the calls of the JSON encoder. *)
Definition run_sql (fuel : nat) (srv : Server) (sql : string) : M string :=
  cur_execute srv (StmtRaw sql) ;;
  desc <- cur_description ;;
  columns <- match desc with
             | Some names => ret names
             | None => raise (TypeError "'NoneType' object is not iterable")
             end ;;
  res <- cur_fetchall ;;
  let list_of_dicts := map (fun row => dict_of (combine columns row)) res in
  json_result <- lift (dumps fuel datetime_handler
                         (PList (map PDict list_of_dicts))) ;;
  ret json_result.

(** ["{} {},\n".format(row[2], row[3])] appended to the text so far. *)
Definition add_column_line (create_table_stmt : string) (row : list pyobj)
  : outcome string :=
  obind (getitem row 2) (fun name =>
  obind (getitem row 3) (fun type =>
  Return (create_table_stmt ++ py_str name ++ " " ++ py_str type ++ ","
          ++ newline)%string)).

Definition get_table_definition (srv : Server) (table_name : string)
  : M string :=
  cur_execute srv (StmtGetDef [PStr table_name]) ;;
  rows <- cur_fetchall ;;
  let create_table_stmt := ("CREATE TABLE " ++ table_name ++ " (" ++ newline)%string in
  create_table_stmt <- lift (ofold add_column_line rows create_table_stmt) ;;
  let create_table_stmt :=
    (rstrip ("," ++ newline) create_table_stmt ++ newline ++ ");")%string in
  ret create_table_stmt.

Definition get_all_table_names (srv : Server) : M (list string) :=
  cur_execute srv StmtGetAllTables ;;
  rows <- cur_fetchall ;;
  lift (omap name_cell rows).

Definition get_table_definitions_for_prompt (srv : Server) : M string :=
  table_names <- get_all_table_names srv ;;
  definitions <- fold_m (fun definitions table_name =>
                           d <- get_table_definition srv table_name ;;
                           ret (definitions ++ [d]))
                   table_names [] ;;
  ret (join (newline ++ newline) definitions).

Definition get_table_definition_map_for_embeddings (srv : Server)
  : M (list (string * string)) :=
  table_names <- get_all_table_names srv ;;
  fold_m (fun definitions table_name =>
            d <- get_table_definition srv table_name ;;
            ret (dict_set definitions table_name d))
    table_names [].

(** The two lookups for one table of [table_list]. *)
Definition related_lookups (srv : Server) (n : Z) (table : string)
  : M (list string) :=
  cur_execute srv (StmtReferencing table n) ;;
  rows <- cur_fetchall ;;
  related_tables <- lift (omap name_cell rows) ;;
  cur_execute srv (StmtReferenced table n) ;;
  rows <- cur_fetchall ;;
  more <- lift (omap name_cell rows) ;;
  ret (related_tables ++ more).

Definition get_related_tables (srv : Server) (table_list : list string)
  (n : Z) : M (list string) :=
  related_tables_dict <-
    fold_m (fun related_tables_dict table =>
              related_tables <- related_lookups srv n table ;;
              ret (dict_set related_tables_dict table related_tables))
      table_list [] ;;
  let related_tables_list :=
    fold_left (fun acc kv => acc ++ snd kv) related_tables_dict [] in
  ret (list_of_set related_tables_list).

End Runtime.

(** [2] is the default of the parameter [n]. *)
Definition default_n : Z := 2.

(* ================================================================== *)
(** ** States of the manager *)

(** The handles are both absent or both present. *)
Definition paired (m : PostgresManager) : Prop :=
  (conn m = None /\ cur m = None) \/ (conn m <> None /\ cur m <> None).

(** The manager holds an open connection, not in a failed transaction, and
    an open cursor. *)
Definition ready (w : World) : Prop :=
  exists k c, conn (self w) = Some k /\ cur (self w) = Some c
              /\ conn_closed k = false /\ in_failed_transaction k = false
              /\ cur_closed c = false.

(** The world [close] leaves: each handle that is present is closed in
    place, the cursor first. *)
Definition closed_world (w : World) : World :=
  {| self := {| conn := option_map connection_close (conn (self w));
                cur := option_map cursor_close (cur (self w)) |};
     calls := calls w
              ++ match cur (self w) with Some _ => [CallCursorClose] | None => [] end
              ++ match conn (self w) with Some _ => [CallConnectionClose] | None => [] end |}.

(** Which of the two handles are present. *)
Definition handles (w : World) : bool * bool :=
  (match conn (self w) with Some _ => true | None => false end,
   match cur (self w) with Some _ => true | None => false end).

(** A computation that neither creates nor drops a handle. *)
Definition keeps_handles {A} (m : M A) : Prop :=
  forall w, handles (snd (m w)) = handles w.

(** The world after [execute] left a result set on the cursor. *)
Definition executed (columns : list string) (rows : list (list pyobj))
  (w : World) : World :=
  {| self := {| conn := conn (self w);
                cur := Some {| cur_closed := false;
                               description := Some columns;
                               pending := Some rows |} |};
     calls := calls w ++ [CallExecute] |}.

(** The world after [execute] and [fetchall]. *)
Definition after_query (columns : list string) (w : World) : World :=
  {| self := {| conn := conn (self w);
                cur := Some {| cur_closed := false;
                               description := Some columns;
                               pending := Some [] |} |};
     calls := calls w ++ [CallExecute; CallFetchall] |}.

(** The line of the definition text for one introspected row. *)
Definition column_line (r : def_row) : string :=
  column_name r ++ " " ++ column_type r ++ "," ++ newline.

Definition column_lines (rows : list def_row) : string :=
  fold_right (fun r text => column_line r ++ text)%string EmptyString rows.

(** The first line of the definition text. *)
Definition create_table_header (table_name : string) : string :=
  "CREATE TABLE " ++ table_name ++ " (".

(** [s] ends with [suffix]. *)
Definition ends_with (s suffix : string) : Prop :=
  exists p, s = (p ++ suffix)%string.

(** [s] begins with [prefix]. *)
Definition begins_with (s prefix : string) : Prop :=
  exists q, s = (prefix ++ q)%string.

(** The characters [get_table_definition] strips: [",\n"]. *)
Definition strip_chars : string := "," ++ newline.

(** The text of the definition of [table_name] over a server. *)
Definition definition_text (srv : Server) (table_name : string) : string :=
  rstrip strip_chars
    (create_table_header table_name ++ newline
     ++ column_lines (get_def_stmt (catalog srv) [PStr table_name]))
  ++ newline ++ ");".

(** A column as written on the last line: [<column_name> <column_type>]. *)
Definition column_entry (r : def_row) : string :=
  column_name r ++ " " ++ column_type r.

(** The answer of the server to the two lookups for [table], the first
    lookup's names before the second's. *)
Definition lookups_result (c : Catalog) (n : Z) (table : string)
  : outcome (list string) :=
  if has_nul table then Raise nul_error
  else
    obind (referencing_stmt c table n) (fun related_tables =>
    obind (referenced_stmt c table n) (fun more =>
    Return (related_tables ++ more))).

(** The dictionary [related_tables_dict] after the loop over [table_list]. *)
Definition related_dict (c : Catalog) (n : Z) (table_list : list string)
  (acc : list (string * list string)) : outcome (list (string * list string)) :=
  ofold (fun d table =>
           obind (lookups_result c n table) (fun r => Return (dict_set d table r)))
    table_list acc.

(** The world after [execute] failed on the server. *)
Definition failed_world (w : World) : World :=
  {| self := {| conn := match conn (self w) with
                        | Some k => Some {| dsn := dsn k;
                                            conn_closed := conn_closed k;
                                            in_failed_transaction := true |}
                        | None => None
                        end;
                cur := Some {| cur_closed := false; description := None;
                               pending := None |} |};
     calls := calls w ++ [CallExecute] |}.

(** What [self.cur.execute] raises when [self.cur] is [None]. *)
Definition no_cursor_error : exception :=
  AttributeError "'NoneType' object has no attribute 'execute'".

(** What the driver raises for a statement on a closed cursor. *)
Definition closed_cursor_error : exception :=
  InterfaceError "cursor already closed".


(** The world after one more driver call that changed no handle. *)
Definition logged (c : driver_call) (w : World) : World :=
  {| self := self w; calls := calls w ++ [c] |}.

(** The world after [execute] ran a statement that returns no rows. *)
Definition executed_no_result (w : World) : World :=
  {| self := {| conn := conn (self w);
                cur := Some {| cur_closed := false; description := None;
                               pending := None |} |};
     calls := calls w ++ [CallExecute] |}.


(** No handle on the manager is open. *)
Definition all_closed (w : World) : Prop :=
  (forall k, conn (self w) = Some k -> conn_closed k = true)
  /\ (forall c, cur (self w) = Some c -> cur_closed c = true).

(** The driver calls of one statement: [execute], then [fetchall]. *)
Definition statement_calls : list driver_call := [CallExecute; CallFetchall].

(** The URL gives a connection: the driver can parse it and the server
    accepts it. *)
Definition connects (srv : Server) (url : string) : bool :=
  valid_dsn srv url && accepts srv url.

(** What [psycopg2.connect] raises for a URL that gives no connection. *)
Definition connect_error (srv : Server) (url : string) : exception :=
  if valid_dsn srv url
  then OperationalError "could not connect to server"
  else ProgrammingError "invalid dsn".

(** When the two lookups of a table both return. *)
Definition lookups_return (c : Catalog) (n : Z) (t : string) : Prop :=
  has_nul t = false
  /\ (0 <= n <= bigint_max)%Z
  /\ (n = 0%Z \/ subquery_evaluated c t = false
      \/ length (referencing_subquery c t) <= 1).


(** What a caller can do with a manager. *)
Inductive operation : Type :=
| OpConnect (srv : Server) (url : string)
| OpClose
| OpEnter
| OpExit (exc_val : option exception)
| OpRunSql (fuel : nat) (srv : Server) (sql : string)
| OpGetTableDefinition (srv : Server) (table_name : string)
| OpGetAllTableNames (srv : Server)
| OpDefinitionsForPrompt (srv : Server)
| OpDefinitionMap (srv : Server)
| OpRelatedTables (srv : Server) (table_list : list string) (n : Z).

Definition run_operation (container_str : pyobj -> string)
  (list_of_set : list string -> list string) (op : operation) (w : World)
  : World :=
  match op with
  | OpConnect srv url => snd (connect_with_url srv url w)
  | OpClose => snd (close w)
  | OpEnter => snd (__enter__ w)
  | OpExit e => snd (__exit__ e w)
  | OpRunSql fuel srv sql => snd (run_sql container_str fuel srv sql w)
  | OpGetTableDefinition srv t => snd (get_table_definition container_str srv t w)
  | OpGetAllTableNames srv => snd (get_all_table_names srv w)
  | OpDefinitionsForPrompt srv =>
      snd (get_table_definitions_for_prompt container_str srv w)
  | OpDefinitionMap srv =>
      snd (get_table_definition_map_for_embeddings container_str srv w)
  | OpRelatedTables srv tl n => snd (get_related_tables list_of_set srv tl n w)
  end.

(** The worlds reached from a new manager by calls of its methods, each
    ending normally or in an exception. *)
Inductive reachable (container_str : pyobj -> string)
  (list_of_set : list string -> list string) : World -> Prop :=
| reach_init : reachable container_str list_of_set new_world
| reach_step : forall w op,
    reachable container_str list_of_set w ->
    reachable container_str list_of_set
      (run_operation container_str list_of_set op w).

(* ================================================================== *)
(** ** Sample data *)

Definition sample_catalog : Catalog := {|
  foreign_tables :=
    [ {| foreign_table_schema := "akeyless"; foreign_table_name := "users" |};
      {| foreign_table_schema := "akeyless"; foreign_table_name := "orders" |};
      {| foreign_table_schema := "public"; foreign_table_name := "audit" |} ];
  pg_foreign_table := [ {| ftrelid := 1 |}; {| ftrelid := 2 |}; {| ftrelid := 3 |} ];
  pg_attribute :=
    [ {| attrelid := 1; attname := "id"; atttypid := 23; atttypmod := -1; attnum := 1 |};
      {| attrelid := 1; attname := "name"; atttypid := 25; atttypmod := -1; attnum := 2 |};
      {| attrelid := 1; attname := "ctid"; atttypid := 27; atttypmod := -1; attnum := -1 |};
      {| attrelid := 2; attname := "id"; atttypid := 23; atttypmod := -1; attnum := 1 |};
      {| attrelid := 2; attname := "user_id"; atttypid := 23; atttypmod := -1; attnum := 2 |};
      {| attrelid := 3; attname := "entry"; atttypid := 25; atttypmod := -1; attnum := 1 |} ];
  pg_description :=
    [ {| objoid := 1; objsubid := 2; d_description := "display name" |} ];
  foreign_table_constraints :=
    [ {| ftc_foreign_table_schema := "akeyless";
         ftc_foreign_table_name := "orders";
         ftc_constraint_type := "FOREIGN KEY";
         ftc_unique_constraint_schema := "akeyless";
         ftc_unique_constraint_name := "orders_user_fk";
         ftc_referenced_table_schema := "akeyless";
         ftc_referenced_table_name := "users" |} ];
  table_constraints :=
    [ {| tc_constraint_schema := "akeyless";
         tc_constraint_name := "orders_user_fk";
         tc_table_name := "orders";
         tc_constraint_type := "FOREIGN KEY" |} ];
  constraint_column_usage := [ {| ccu_constraint_name := "orders_user_fk" |} ];
  regclass_text := fun oid =>
    if N.eqb oid 1 then "users" else if N.eqb oid 2 then "orders" else "audit";
  format_type := fun ty _ => if N.eqb ty 23 then "integer" else "text";
  plan_evaluates_subquery := fun _ => false
|}.

Definition empty_catalog : Catalog := {|
  foreign_tables := []; pg_foreign_table := []; pg_attribute := [];
  pg_description := []; foreign_table_constraints := [];
  table_constraints := []; constraint_column_usage := [];
  regclass_text := fun _ => ""; format_type := fun _ _ => "";
  plan_evaluates_subquery := fun _ => false
|}.

Definition sample_datetime : datetime := {|
  year := 2024; month := 3; day := 9; hour := 14; minute := 5; second := 7;
  microsecond := 0; utcoffset := Some 3600%Z
|}.

(** The server answers the one query below with two columns and one row. *)
Definition sample_server : Server := {|
  valid_dsn := fun url => String.prefix "postgresql://" url;
  accepts := fun url => String.eqb url "postgresql://localhost/db";
  catalog := sample_catalog;
  answer := fun sql =>
    if String.eqb sql "SELECT created, price FROM orders"
    then QRows ["created"; "price"]
           [[PDatetime sample_datetime; PObject "Decimal" "9.50"]]
    else if String.eqb sql "ROLLBACK" then QNoResult
    else if String.eqb sql "" then
      QRefused (ProgrammingError "can't execute an empty query")
    else QError (DatabaseError "syntax error");
  ends_transaction := fun sql => String.eqb sql "ROLLBACK"
|}.

Definition empty_server : Server := {|
  valid_dsn := fun _ => true;
  accepts := fun _ => true;
  catalog := empty_catalog;
  answer := fun _ => QNoResult;
  ends_transaction := fun _ => false
|}.

(** A server whose every query returns one column and no row. *)
Definition quiet_server : Server := {|
  valid_dsn := fun _ => true;
  accepts := fun _ => true;
  catalog := sample_catalog;
  answer := fun _ => QRows ["id"] [];
  ends_transaction := fun _ => false
|}.

Definition sample_url : string := "postgresql://localhost/db".

(** A manager after [connect_with_url sample_url]. *)
Definition connected_world : World :=
  snd (connect_with_url sample_server sample_url new_world).

(** One choice of [repr] text and of set order for the samples. *)
Definition sample_container_str (o : pyobj) : string := "[...]".
Definition sample_list_of_set (l : list string) : list string :=
  nodup string_dec l.

(* ================================================================== *)
(** * Properties *)

(** ** Life cycle *)

Lemma close_cur_if_present_eq (w : World) :
  close_cur_if_present w =
  (Return tt,
   match cur (self w) with
   | Some c => {| self := {| conn := conn (self w);
                             cur := Some (cursor_close c) |};
                  calls := calls w ++ [CallCursorClose] |}
   | None => w
   end).
Proof.
  unfold close_cur_if_present, bind, get_self.
  destruct (cur (self w)); reflexivity.
Qed.

Lemma close_conn_if_present_eq (w : World) :
  close_conn_if_present w =
  (Return tt,
   match conn (self w) with
   | Some k => {| self := {| conn := Some (connection_close k);
                             cur := cur (self w) |};
                  calls := calls w ++ [CallConnectionClose] |}
   | None => w
   end).
Proof.
  unfold close_conn_if_present, bind, get_self.
  destruct (conn (self w)); reflexivity.
Qed.

Lemma close_eq (w : World) : close w = (Return tt, closed_world w).
Proof.
  unfold close, bind. rewrite close_cur_if_present_eq.
  rewrite close_conn_if_present_eq. unfold closed_world.
  destruct w as [[k c] tr]; destruct k, c; simpl;
    rewrite <- ?app_assoc, ?app_nil_r; reflexivity.
Qed.

Lemma exit_eq (e : option exception) (w : World) :
  __exit__ e w = (Return PNone, closed_world w).
Proof.
  pose proof (close_eq w) as H. unfold close, bind in H.
  unfold __exit__, bind.
  destruct (close_cur_if_present w) as [[[]|x] w1]; try discriminate.
  destruct (close_conn_if_present w1) as [[[]|y] w2]; try discriminate.
  unfold ret. congruence.
Qed.

Lemma connect_with_url_eq (srv : Server) (url : string) (w : World) :
  connect_with_url srv url w =
  if connects srv url
  then (Return tt,
        {| self := {| conn := Some {| dsn := url; conn_closed := false;
                                      in_failed_transaction := false |};
                      cur := Some new_cursor |};
           calls := calls w ++ [CallConnect url; CallCursor] |})
  else (Raise (connect_error srv url),
        {| self := self w; calls := calls w ++ [CallConnect url] |}).
Proof.
  unfold connect_with_url, psycopg2_connect, connects, connect_error, bind, log.
  destruct (valid_dsn srv url); simpl; [|reflexivity].
  destruct (accepts srv url); simpl; [|reflexivity].
  rewrite <- app_assoc. reflexivity.
Qed.

Lemma keeps_ret {A} (a : A) : keeps_handles (ret a).
Proof. intro w; reflexivity. Qed.

Lemma keeps_raise {A} (e : exception) : keeps_handles (@raise A e).
Proof. intro w; reflexivity. Qed.

Lemma keeps_lift {A} (o : outcome A) : keeps_handles (lift o).
Proof. intro w; reflexivity. Qed.

Lemma keeps_log (c : driver_call) : keeps_handles (log c).
Proof. intro w; reflexivity. Qed.

Lemma keeps_get_self : keeps_handles get_self.
Proof. intro w; reflexivity. Qed.

Lemma keeps_bind {A B} (m : M A) (k : A -> M B) :
  keeps_handles m -> (forall a, keeps_handles (k a)) -> keeps_handles (bind m k).
Proof.
  intros Hm Hk w. unfold bind. specialize (Hm w).
  destruct (m w) as [[a|e] w1]; simpl in *.
  - rewrite Hk. exact Hm.
  - exact Hm.
Qed.

Lemma keeps_fold_m {A S} (body : S -> A -> M S) (xs : list A) :
  (forall acc x, keeps_handles (body acc x)) ->
  forall acc, keeps_handles (fold_m body xs acc).
Proof.
  intros Hb. induction xs as [|x rest IH]; intro acc; simpl.
  - apply keeps_ret.
  - apply keeps_bind; [apply Hb | exact IH].
Qed.

Lemma keeps_set_cur_some (c : cursor) (w : World) :
  cur (self w) <> None -> handles (snd (set_cur (Some c) w)) = handles w.
Proof.
  unfold handles; simpl. destruct (cur (self w)); [reflexivity | congruence].
Qed.

Lemma keeps_set_failed (b : bool) : keeps_handles (set_failed b).
Proof.
  intro w. unfold set_failed, bind, get_self, handles.
  destruct (conn (self w)) eqn:E; simpl; rewrite ?E; reflexivity.
Qed.

Lemma keeps_mark_failed : keeps_handles mark_failed.
Proof. apply keeps_set_failed. Qed.

Lemma keeps_cur_execute (srv : Server) (stmt : statement) :
  keeps_handles (cur_execute srv stmt).
Proof.
  intro w. unfold cur_execute, bind, get_self.
  destruct (cur (self w)) as [c|] eqn:Ec; [|reflexivity].
  cbn [log fst snd].
  match goal with |- context [if ?b then _ else _] => destruct b end;
    [reflexivity|].
  destruct (conn (self w)) as [k|] eqn:Ek;
    destruct (server_eval srv stmt) as [e|e| |cols rows];
    try destruct (in_failed_transaction k);
    try destruct (ends_failed_transaction srv stmt);
    unfold handles, set_cur, mark_failed, set_failed, bind, get_self, raise;
    simpl; rewrite ?Ec, ?Ek; simpl; rewrite ?Ek; reflexivity.
Qed.

Lemma keeps_cur_description : keeps_handles cur_description.
Proof.
  intro w. unfold cur_description, bind, get_self.
  destruct (cur (self w)); reflexivity.
Qed.

Lemma keeps_cur_fetchall : keeps_handles cur_fetchall.
Proof.
  intro w. unfold cur_fetchall, bind, get_self.
  destruct (cur (self w)) as [c|] eqn:Ec; [|reflexivity].
  cbn [log fst snd].
  destruct (cur_closed c); [reflexivity|].
  destruct (pending c); [|reflexivity].
  unfold handles; simpl. rewrite Ec. reflexivity.
Qed.

Create HintDb keeps.
#[local] Hint Resolve keeps_ret keeps_raise keeps_lift keeps_log keeps_get_self
  keeps_cur_execute keeps_cur_description keeps_cur_fetchall : keeps.

Ltac keeps_tac :=
  repeat first
    [ solve [auto with keeps]
    | apply keeps_bind; [|intro]
    | apply keeps_fold_m; intros
    | match goal with
      | |- keeps_handles (match ?x with _ => _ end) => destruct x
      end ].

Lemma keeps_get_table_definition cs srv t :
  keeps_handles (get_table_definition cs srv t).
Proof. unfold get_table_definition. keeps_tac. Qed.

Lemma keeps_get_all_table_names srv : keeps_handles (get_all_table_names srv).
Proof. unfold get_all_table_names. keeps_tac. Qed.

Lemma keeps_run_sql cs fuel srv sql : keeps_handles (run_sql cs fuel srv sql).
Proof. unfold run_sql. keeps_tac. Qed.

Lemma keeps_related_lookups srv n t : keeps_handles (related_lookups srv n t).
Proof. unfold related_lookups. keeps_tac. Qed.

Lemma keeps_close : keeps_handles close.
Proof.
  intro w. rewrite close_eq. unfold closed_world, handles; simpl.
  destruct (conn (self w)), (cur (self w)); reflexivity.
Qed.

Lemma keeps_operation cs ls (op : operation) (w : World) :
  (forall srv url, op <> OpConnect srv url) ->
  handles (run_operation cs ls op w) = handles w.
Proof.
  intro Hop. destruct op; simpl.
  - exfalso. eapply Hop. reflexivity.
  - apply keeps_close.
  - reflexivity.
  - rewrite exit_eq. simpl. pose proof (keeps_close w) as H.
    rewrite close_eq in H. exact H.
  - apply keeps_run_sql.
  - apply keeps_get_table_definition.
  - apply keeps_get_all_table_names.
  - unfold get_table_definitions_for_prompt.
    apply keeps_bind; [apply keeps_get_all_table_names|intro].
    apply keeps_bind; [|intro; apply keeps_ret].
    apply keeps_fold_m. intros.
    apply keeps_bind; [apply keeps_get_table_definition|intro; apply keeps_ret].
  - unfold get_table_definition_map_for_embeddings.
    apply keeps_bind; [apply keeps_get_all_table_names|intro].
    apply keeps_fold_m. intros.
    apply keeps_bind; [apply keeps_get_table_definition|intro; apply keeps_ret].
  - unfold get_related_tables.
    apply keeps_bind; [|intro; apply keeps_ret].
    apply keeps_fold_m. intros.
    apply keeps_bind; [apply keeps_related_lookups|intro; apply keeps_ret].
Qed.

Lemma paired_handles (w : World) :
  paired (self w) <-> fst (handles w) = snd (handles w).
Proof.
  unfold paired, handles; simpl.
  destruct (conn (self w)), (cur (self w)); split; intros H;
    try reflexivity; try discriminate;
    try (destruct H as [[? ?]|[? ?]]; congruence).
  - right. split; discriminate.
  - left. split; reflexivity.
Qed.

Lemma reachable_paired cs ls (w : World) :
  reachable cs ls w -> paired (self w).
Proof.
  induction 1 as [|w op Hr IH].
  - left. split; reflexivity.
  - destruct op;
      try (apply paired_handles; rewrite keeps_operation by discriminate;
           apply paired_handles; exact IH).
    simpl. rewrite connect_with_url_eq.
    destruct (connects srv url); simpl.
    + right. split; discriminate.
    + exact IH.
Qed.

(** C7.  [close] raises no error in any state of the manager.  On a manager
    that was never connected (both handles absent) it makes no driver call
    and changes nothing.  After a successful connect, a second [close] in
    succession raises no error and leaves the manager as the first one left
    it.  A missing cursor or a missing connection is not an error. *)
Theorem close_raises_nothing_and_is_idempotent :
  (forall w, fst (close w) = Return tt)
  /\ (forall w, conn (self w) = None -> cur (self w) = None ->
                close w = (Return tt, w))
  /\ close new_world = (Return tt, new_world)
  /\ (forall srv url w,
        connect_with_url srv url new_world = (Return tt, w) ->
        fst (close (snd (close w))) = Return tt
        /\ self (snd (close (snd (close w)))) = self (snd (close w)))
  /\ (forall w, self (snd (close (snd (close w)))) = self (snd (close w)))
  /\ (forall w, conn (self w) = None \/ cur (self w) = None ->
                fst (close w) = Return tt).
Proof.
  assert (Hidem : forall w,
             self (snd (close (snd (close w)))) = self (snd (close w))).
  { intro w. rewrite !close_eq. simpl.
    destruct (conn (self w)), (cur (self w)); reflexivity. }
  assert (Hnone : forall w, conn (self w) = None -> cur (self w) = None ->
                            close w = (Return tt, w)).
  { intros [[k c] tr] Hk Hc. simpl in Hk, Hc. subst.
    rewrite close_eq. unfold closed_world; simpl.
    rewrite app_nil_r. reflexivity. }
  split; [|split; [|split; [|split; [|split]]]].
  - intro w. rewrite close_eq. reflexivity.
  - exact Hnone.
  - apply Hnone; reflexivity.
  - intros srv url w _. split.
    + rewrite !close_eq. reflexivity.
    + apply Hidem.
  - exact Hidem.
  - intros w _. rewrite close_eq. reflexivity.
Qed.

(** C8.  [__enter__] returns the manager itself and leaves the world as it
    was: no handle is created and no driver call is made.  [__exit__] does
    what [close] does (the cursor is closed if present, then the connection
    if present) and returns [None].  A scope whose body returns ends with
    the body's value after the cleanup; a scope whose body raises ends with
    the same exception after the cleanup. *)
Theorem scoped_acquisition_cleans_up_and_propagates :
  (forall w, __enter__ w = (Return (self w), w))
  /\ (forall e w, __exit__ e w = (Return PNone, snd (close w)))
  /\ (forall w, snd (close w) = closed_world w)
  /\ (forall A (body : PostgresManager -> M A) w v w2,
        body (self w) w = (Return v, w2) ->
        with_scope body w = (Return (Some v), snd (close w2)))
  /\ (forall A (body : PostgresManager -> M A) w e w2,
        body (self w) w = (Raise e, w2) ->
        with_scope body w = (Raise e, snd (close w2))).
Proof.
  split; [|split; [|split; [|split]]].
  - reflexivity.
  - intros e w. rewrite exit_eq, close_eq. reflexivity.
  - intro w. rewrite close_eq. reflexivity.
  - intros A body w v w2 H. unfold with_scope, __enter__, get_self.
    rewrite H, exit_eq, close_eq. reflexivity.
  - intros A body w e w2 H. unfold with_scope, __enter__, get_self.
    rewrite H, exit_eq, close_eq. reflexivity.
Qed.

(** C9, as amended.  In every reachable state the connection handle and
    the cursor handle are both absent or both present.  A new manager has
    both absent; a connect that succeeds leaves both present; [close]
    closes each handle in place and keeps it on the manager, so a handle
    that was present stays present. *)
Theorem handles_paired_and_kept_by_close
  (container_str : pyobj -> string)
  (list_of_set : list string -> list string) :
  (forall w, reachable container_str list_of_set w -> paired (self w))
  /\ (conn __init__ = None /\ cur __init__ = None)
  /\ (forall srv url w w',
        connect_with_url srv url w = (Return tt, w') ->
        conn (self w') <> None /\ cur (self w') <> None)
  /\ (forall w,
        conn (self (snd (close w))) = option_map connection_close (conn (self w))
        /\ cur (self (snd (close w))) = option_map cursor_close (cur (self w))).
Proof.
  split; [|split; [|split]].
  - intros w. apply reachable_paired.
  - split; reflexivity.
  - intros srv url w w' H. rewrite connect_with_url_eq in H.
    destruct (connects srv url); [|discriminate].
    injection H as <-. simpl. split; discriminate.
  - intro w. rewrite close_eq. split; reflexivity.
Qed.

(** ** Running a statement on a ready manager *)

Lemma bind_return {A B} (m : M A) (k : A -> M B) (w w' : World) (a : A) :
  m w = (Return a, w') -> bind m k w = k a w'.
Proof. intro H. unfold bind. rewrite H. reflexivity. Qed.

Lemma bind_raise {A B} (m : M A) (k : A -> M B) (w w' : World) (e : exception) :
  m w = (Raise e, w') -> bind m k w = (Raise e, w').
Proof. intro H. unfold bind. rewrite H. reflexivity. Qed.

Lemma cur_execute_ready (srv : Server) (stmt : statement) (w : World)
  (columns : list string) (rows : list (list pyobj)) :
  ready w ->
  server_eval srv stmt = QRows columns rows ->
  cur_execute srv stmt w = (Return tt, executed columns rows w).
Proof.
  intros (k & c & Hk & Hc & Hko & Hkf & Hco) Hev.
  unfold cur_execute, bind, get_self. rewrite Hc. cbn [log fst snd self].
  rewrite Hk, Hco, Hko, Hkf, Hev. reflexivity.
Qed.

Lemma cur_description_executed columns rows w :
  cur_description (executed columns rows w)
  = (Return (Some columns), executed columns rows w).
Proof. reflexivity. Qed.

Lemma cur_fetchall_executed columns rows w :
  cur_fetchall (executed columns rows w) = (Return rows, after_query columns w).
Proof.
  unfold cur_fetchall, bind, get_self, executed, after_query. simpl.
  rewrite <- app_assoc. reflexivity.
Qed.

Lemma ready_after_query columns w : ready w -> ready (after_query columns w).
Proof.
  intros (k & c & Hk & Hc & Hko & Hkf & Hco).
  exists k. eexists. simpl. repeat split; eauto.
Qed.

(** [execute] followed by [fetchall] hands the rows to the rest of the
    method. *)
Lemma query_ready {B} (srv : Server) (stmt : statement) (w : World)
  (columns : list string) (rows : list (list pyobj))
  (k : list (list pyobj) -> M B) :
  ready w ->
  server_eval srv stmt = QRows columns rows ->
  bind (cur_execute srv stmt) (fun _ => bind cur_fetchall k) w
  = k rows (after_query columns w).
Proof.
  intros Hr Hev. unfold bind at 1.
  rewrite (cur_execute_ready _ _ _ _ _ Hr Hev).
  unfold bind. rewrite cur_fetchall_executed. reflexivity.
Qed.

Lemma omap_name_cell (names : list string) :
  omap name_cell (map (fun s => [PStr s]) names) = Return names.
Proof.
  induction names as [|x rest IH]; simpl; [reflexivity|].
  rewrite IH. reflexivity.
Qed.

(** ** String facts *)

Lemma append_assoc (a b c : string) : ((a ++ b) ++ c = a ++ (b ++ c))%string.
Proof. induction a as [|x a IH]; simpl; [reflexivity | now rewrite IH]. Qed.

Lemma append_nil_r (a : string) : (a ++ "")%string = a.
Proof. induction a as [|x a IH]; simpl; [reflexivity | now rewrite IH]. Qed.

Lemma append_length (a b : string) :
  String.length (a ++ b) = String.length a + String.length b.
Proof. induction a as [|x a IH]; simpl; [reflexivity | now rewrite IH]. Qed.

Lemma append_cancel_r (a b c : string) :
  (a ++ c)%string = (b ++ c)%string -> a = b.
Proof.
  revert b. induction a as [|x a IH]; intros [|y b] H; simpl in H.
  - reflexivity.
  - exfalso. apply (f_equal String.length) in H. simpl in H.
    rewrite append_length in H. lia.
  - exfalso. apply (f_equal String.length) in H. simpl in H.
    rewrite append_length in H. lia.
  - injection H as -> H. f_equal. apply IH. exact H.
Qed.

Lemma rstrip_app_keep (chars s t : string) :
  rstrip chars t <> EmptyString ->
  rstrip chars (s ++ t) = (s ++ rstrip chars t)%string.
Proof.
  intro Ht. induction s as [|x s IH]; simpl; [reflexivity|].
  rewrite IH. destruct (s ++ rstrip chars t)%string eqn:E; [|reflexivity].
  exfalso. destruct s; simpl in E; [contradiction | discriminate].
Qed.

Lemma rstrip_app_all (chars s t : string) :
  rstrip chars t = EmptyString ->
  rstrip chars (s ++ t) = rstrip chars s.
Proof.
  intro Ht. induction s as [|x s IH]; simpl; [exact Ht|].
  rewrite IH. reflexivity.
Qed.

(** What [rstrip] keeps does not end with a character of [chars]. *)
Lemma rstrip_last_kept (chars s p : string) (c : ascii) :
  char_in c chars = true ->
  rstrip chars s <> (p ++ String c EmptyString)%string.
Proof.
  intro Hc. revert p. induction s as [|x s IH]; intros p; simpl.
  - destruct p; discriminate.
  - destruct (rstrip chars s) as [|y r] eqn:E.
    + destruct (char_in x chars) eqn:Ex.
      * destruct p; discriminate.
      * destruct p as [|z p]; simpl.
        -- intro H. injection H as ->. congruence.
        -- intro H. injection H as _ H. destruct p; discriminate.
    + destruct p as [|z p]; simpl.
      * discriminate.
      * intro H. injection H as _ H. exact (IH p H).
Qed.

Lemma rstrip_fixed_by_last (chars s : string) (c : ascii) :
  char_in c chars = false ->
  rstrip chars (s ++ String c EmptyString) = (s ++ String c EmptyString)%string.
Proof.
  intro Hc. rewrite rstrip_app_keep; simpl; rewrite Hc; [reflexivity|discriminate].
Qed.

(** ** The definition text *)

Lemma column_lines_cons (r : def_row) (rest : list def_row) :
  column_lines (r :: rest) = (column_line r ++ column_lines rest)%string.
Proof. reflexivity. Qed.

Lemma ofold_add_column_line cs (rows : list def_row) (acc : string) :
  ofold (add_column_line cs) (map def_row_tuple rows) acc
  = Return (acc ++ column_lines rows)%string.
Proof.
  revert acc. induction rows as [|r rest IH]; intro acc.
  - simpl. now rewrite append_nil_r.
  - rewrite column_lines_cons. cbn [map ofold]. 
    unfold add_column_line at 1. simpl. rewrite IH. f_equal.
    unfold column_line. rewrite !append_assoc. simpl.
    rewrite !append_assoc. reflexivity.
Qed.

Lemma column_lines_app (a b : list def_row) :
  column_lines (a ++ b) = (column_lines a ++ column_lines b)%string.
Proof.
  induction a as [|r a IH]; [reflexivity|].
  rewrite <- app_comm_cons, !column_lines_cons, IH, append_assoc. reflexivity.
Qed.

(** The text [get_table_definition] returns on a ready manager, in terms of
    the rows of [get_def_stmt]. *)
Lemma get_table_definition_ready cs (srv : Server) (t : string) (w : World) :
  ready w ->
  get_table_definition cs srv t w
  = (Return (definition_text srv t), after_query get_def_columns w).
Proof.
  intro Hr. unfold get_table_definition.
  rewrite (query_ready srv _ w get_def_columns
             (map def_row_tuple (get_def_stmt (catalog srv) [PStr t])));
    [|exact Hr|reflexivity].
  unfold bind, lift. rewrite ofold_add_column_line. unfold ret.
  unfold definition_text, create_table_header, strip_chars.
  rewrite !append_assoc. reflexivity.
Qed.

(** ** Facts about the relational operators *)

Lemma in_sql_join {A B} (l : list A) (r : list B) (on : A -> B -> bool) a b :
  In (a, b) (sql_join l r on) <-> In a l /\ In b r /\ on a b = true.
Proof.
  unfold sql_join. rewrite in_flat_map. split.
  - intros (x & Hx & Hin). apply in_map_iff in Hin.
    destruct Hin as (y & Heq & Hy). injection Heq as -> ->.
    apply filter_In in Hy. tauto.
  - intros (Ha & Hb & Hon). exists a. split; [exact Ha|].
    apply in_map. apply filter_In. tauto.
Qed.

Lemma in_sql_left_join {A B} (l : list A) (r : list B) (on : A -> B -> bool)
  a (ob : option B) :
  In (a, ob) (sql_left_join l r on) <->
  In a l /\ match ob with
            | Some b => In b r /\ on a b = true
            | None => forall b, In b r -> on a b = false
            end.
Proof.
  unfold sql_left_join. rewrite in_flat_map. split.
  - intros (x & Hx & Hin).
    destruct (filter (on x) r) as [|m ms] eqn:E.
    + destruct Hin as [Heq|[]]. injection Heq as Hxa Hob. subst x ob.
      split; [exact Hx|]. intros b Hb.
      destruct (on a b) eqn:Eon; [|reflexivity].
      assert (In b (filter (on a) r)) as Hf by (apply filter_In; tauto).
      rewrite E in Hf. destruct Hf.
    + apply in_map_iff in Hin. destruct Hin as (y & Heq & Hy).
      injection Heq as Hxa Hob. subst x ob. rewrite <- E in Hy.
      apply filter_In in Hy. tauto.
  - intros (Ha & Hob). exists a. split; [exact Ha|].
    destruct ob as [b|].
    + destruct Hob as (Hb & Hon).
      assert (In b (filter (on a) r)) as Hf by (apply filter_In; tauto).
      destruct (filter (on a) r) as [|m ms] eqn:E; [destruct Hf|].
      apply in_map_iff. exists b. split; [reflexivity | exact Hf].
    + destruct (filter (on a) r) as [|m ms] eqn:E; [left; reflexivity|].
      exfalso. assert (In m (filter (on a) r)) as Hf by (rewrite E; left; reflexivity).
      apply filter_In in Hf. destruct Hf as (Hm & Hon).
      rewrite (Hob m Hm) in Hon. discriminate.
Qed.

(** A left join keeps every row of its left side. *)
Lemma sql_left_join_keeps {A B} (l : list A) (r : list B) (on : A -> B -> bool) a :
  In a l -> exists ob, In (a, ob) (sql_left_join l r on).
Proof.
  intro Ha. destruct (filter (on a) r) as [|m ms] eqn:E.
  - exists None. apply in_sql_left_join. split; [exact Ha|].
    intros b Hb. destruct (on a b) eqn:Eon; [|reflexivity].
    assert (In b (filter (on a) r)) as Hf by (apply filter_In; tauto).
    rewrite E in Hf. destruct Hf.
  - exists (Some m). apply in_sql_left_join. split; [exact Ha|].
    assert (In m (filter (on a) r)) as Hf by (rewrite E; left; reflexivity).
    apply filter_In in Hf. exact Hf.
Qed.

Lemma sql_insert_perm {A} (le : A -> A -> bool) x (l : list A) :
  Permutation (x :: l) (sql_insert le x l).
Proof.
  induction l as [|y rest IH]; simpl; [reflexivity|].
  destruct (le x y); [reflexivity|].
  rewrite perm_swap. apply perm_skip. exact IH.
Qed.

Lemma sql_order_by_perm {A} (le : A -> A -> bool) (l : list A) :
  Permutation l (sql_order_by le l).
Proof.
  induction l as [|x rest IH]; simpl; [reflexivity|].
  rewrite <- sql_insert_perm. apply perm_skip. exact IH.
Qed.

Lemma in_sql_order_by {A} (le : A -> A -> bool) (l : list A) x :
  In x (sql_order_by le l) <-> In x l.
Proof.
  split; apply Permutation_in;
    [symmetry|]; apply sql_order_by_perm.
Qed.

Lemma sql_take_length {A} (l : list A) :
  forall count, (0 <= count)%Z ->
                (Z.of_nat (length (sql_take count l)) <= count)%Z.
Proof.
  induction l as [|x rest IH]; intros count Hc; simpl; [lia|].
  destruct (count <=? 0)%Z eqn:E; simpl; [lia|].
  apply Z.leb_gt in E. specialize (IH (count - 1)%Z). lia.
Qed.

Lemma sql_take_incl {A} (l : list A) :
  forall count, incl (sql_take count l) l.
Proof.
  induction l as [|x rest IH]; intros count y Hy; simpl in *; [exact Hy|].
  destruct (count <=? 0)%Z; [destruct Hy|].
  destruct Hy as [Hy|Hy]; [left; exact Hy | right; exact (IH _ _ Hy)].
Qed.

Lemma sql_limit_count_inv (n : Z) (count : Z) :
  sql_limit_count n = Return count ->
  (0 <= n <= bigint_max)%Z /\ count = n.
Proof.
  unfold sql_limit_count.
  destruct (n <? - bigint_max - 1)%Z eqn:E1; [discriminate|].
  destruct (bigint_max <? n)%Z eqn:E2; [discriminate|]. simpl.
  destruct (n <? 0)%Z eqn:E3; [discriminate|].
  intro H. injection H as <-.
  apply Z.ltb_ge in E2, E3. split; [lia | reflexivity].
Qed.

Lemma sql_limit_count_ok (n : Z) :
  (0 <= n <= bigint_max)%Z -> sql_limit_count n = Return n.
Proof.
  intro Hn. unfold sql_limit_count.
  assert (E1 : (n <? - bigint_max - 1)%Z = false)
    by (apply Z.ltb_ge; unfold bigint_max in *; lia).
  assert (E2 : (bigint_max <? n)%Z = false) by (apply Z.ltb_ge; lia).
  assert (E3 : (n <? 0)%Z = false) by (apply Z.ltb_ge; lia).
  rewrite E1, E2, E3. reflexivity.
Qed.

Lemma sql_limit_count_raises (n : Z) :
  (n < 0)%Z \/ (bigint_max < n)%Z ->
  exists e, sql_limit_count n = Raise e.
Proof.
  intro Hn. unfold sql_limit_count.
  destruct ((n <? - bigint_max - 1)%Z || (bigint_max <? n)%Z) eqn:E;
    [eauto|].
  apply orb_false_elim in E. destruct E as (_ & E2). apply Z.ltb_ge in E2.
  destruct (n <? 0)%Z eqn:E3; [eauto|]. apply Z.ltb_ge in E3. lia.
Qed.

Lemma sql_limit_length {A} (n : Z) (l rows : list A) :
  sql_limit n l = Return rows -> (Z.of_nat (length rows) <= n)%Z.
Proof.
  unfold sql_limit. destruct (sql_limit_count n) as [count|] eqn:E;
    [|discriminate].
  apply sql_limit_count_inv in E. destruct E as (Hn & ->).
  simpl. intro H. injection H as <-. apply sql_take_length. lia.
Qed.

Lemma sql_limit_incl {A} (n : Z) (l rows : list A) :
  sql_limit n l = Return rows -> incl rows l.
Proof.
  unfold sql_limit. destruct (sql_limit_count n) as [count|]; [|discriminate].
  simpl. intro H. injection H as <-. apply sql_take_incl.
Qed.

(** The rows of [get_def_stmt] are the joined rows that pass the filter. *)
Lemma in_get_def_stmt (c : Catalog) (args : list pyobj) (r : def_row) :
  In r (get_def_stmt c args) <->
  exists ft pft a od,
    In (ft, pft, a, od) (get_def_from c)
    /\ foreign_table_schema ft = akeyless /\ (0 < attnum a)%Z
    /\ r = get_def_select c (ft, pft, a, od).
Proof.
  unfold get_def_stmt. rewrite in_sql_order_by, in_map_iff. split.
  - intros ([[[ft pft] a] od] & Hsel & Hin).
    apply filter_In in Hin. destruct Hin as (Hin & Hw).
    simpl in Hw. apply andb_prop in Hw. destruct Hw as (Hs & Hn).
    apply String.eqb_eq in Hs. apply Z.gtb_lt in Hn.
    exists ft, pft, a, od. repeat split; auto.
  - intros (ft & pft & a & od & Hin & Hs & Hn & ->).
    exists (ft, pft, a, od). split; [reflexivity|].
    apply filter_In. split; [exact Hin|]. simpl.
    apply andb_true_intro. split.
    + apply String.eqb_eq. exact Hs.
    + apply Z.gtb_lt. exact Hn.
Qed.

Lemma rstrip_cons_keep (chars s : string) (c : ascii) :
  char_in c chars = false ->
  rstrip chars (String c s) = String c (rstrip chars s).
Proof.
  intro Hc. simpl. destruct (rstrip chars s); [rewrite Hc|]; reflexivity.
Qed.

Lemma rstrip_idem_stable (chars s t : string) :
  rstrip chars t = t -> t <> EmptyString ->
  rstrip chars (s ++ t) = (s ++ t)%string.
Proof.
  intros Ht Hne. rewrite rstrip_app_keep; rewrite Ht; auto.
Qed.

(** Stripping after the last column line: the lines before it stay, the
    last line loses its comma and newline. *)
Lemma rstrip_column_lines (head : string) (init : list def_row) (last : def_row) :
  rstrip strip_chars (head ++ column_lines (init ++ [last]))
  = (head ++ column_lines init ++ column_name last ++ " "
     ++ rstrip strip_chars (column_type last))%string.
Proof.
  set (tail := String " " (column_type last ++ strip_chars)).
  assert (Htail : rstrip strip_chars tail
                  = String " " (rstrip strip_chars (column_type last))).
  { unfold tail. rewrite rstrip_cons_keep by reflexivity.
    rewrite rstrip_app_all by reflexivity. reflexivity. }
  assert (Hsplit : (head ++ column_lines (init ++ [last]))%string
                   = ((head ++ column_lines init ++ column_name last) ++ tail)%string).
  { rewrite column_lines_app. unfold column_lines at 2. simpl.
    rewrite append_nil_r. unfold column_line, tail, strip_chars.
    rewrite !append_assoc. reflexivity. }
  rewrite Hsplit. rewrite rstrip_app_keep by (rewrite Htail; discriminate).
  rewrite Htail, !append_assoc. reflexivity.
Qed.

Lemma join_column_entries (init : list def_row) (last : def_row) :
  (column_lines init ++ column_entry last)%string
  = join strip_chars (map column_entry (init ++ [last])).
Proof.
  induction init as [|r rest IH]; [reflexivity|].
  rewrite column_lines_cons, append_assoc, IH. unfold join.
  rewrite <- app_comm_cons. cbn [map String.concat].
  destruct (map column_entry (rest ++ [last])) eqn:E.
  - destruct rest; discriminate.
  - unfold column_line, column_entry, strip_chars.
    rewrite !append_assoc. reflexivity.
Qed.

(** C1.  The rows [get_table_definition] builds its text from do not
    depend on the requested name: the statement binds its argument nowhere.
    Every column (attribute number above 0) of every foreign table of
    schema akeyless that the joins match is among the rows, whatever name
    was requested, and every row comes from such a column.  The text is the
    header naming the requested table followed by the lines of all those
    rows; over the sample catalog the definition asked for users holds the
    column lines of orders as well. *)
Theorem get_table_definition_not_filtered_by_name (cs : pyobj -> string) :
  (forall c args args', get_def_stmt c args = get_def_stmt c args')
  /\ (forall c args ft pft a,
        In ft (foreign_tables c) -> In pft (pg_foreign_table c) ->
        In a (pg_attribute c) ->
        foreign_table_name ft = regclass_text c (ftrelid pft) ->
        attrelid a = ftrelid pft ->
        foreign_table_schema ft = akeyless -> (0 < attnum a)%Z ->
        exists r, In r (get_def_stmt c args)
                  /\ table_name r = foreign_table_name ft
                  /\ column_name r = attname a
                  /\ column_type r = format_type c (atttypid a) (atttypmod a))
  /\ (forall c args r,
        In r (get_def_stmt c args) ->
        exists ft pft a,
          In ft (foreign_tables c) /\ In pft (pg_foreign_table c)
          /\ In a (pg_attribute c)
          /\ foreign_table_name ft = regclass_text c (ftrelid pft)
          /\ attrelid a = ftrelid pft
          /\ foreign_table_schema ft = akeyless /\ (0 < attnum a)%Z
          /\ schema_name r = akeyless
          /\ table_name r = foreign_table_name ft
          /\ column_name r = attname a
          /\ column_type r = format_type c (atttypid a) (atttypmod a))
  /\ (forall srv t t' w,
        ready w ->
        fst (get_table_definition cs srv t w)
        = Return (rstrip strip_chars
                    (create_table_header t ++ newline
                     ++ column_lines (get_def_stmt (catalog srv) [PStr t']))
                  ++ newline ++ ");")%string)
  /\ fst (get_table_definition cs sample_server "users" connected_world)
     = Return ("CREATE TABLE users (" ++ newline
               ++ "id integer," ++ newline
               ++ "user_id integer," ++ newline
               ++ "id integer," ++ newline
               ++ "name text" ++ newline ++ ");")%string.
Proof.
  split; [|split; [|split; [|split]]].
  - reflexivity.
  - intros c args ft pft a Hft Hpft Ha Hname Hrel Hs Hn.
    assert (Hj : In (ft, pft, a) (sql_join
               (sql_join (foreign_tables c) (pg_foreign_table c)
                  (fun ft pft => String.eqb (foreign_table_name ft)
                                   (regclass_text c (ftrelid pft))))
               (pg_attribute c)
               (fun l a => N.eqb (attrelid a) (ftrelid (snd l))))).
    { apply in_sql_join. split; [|split; [exact Ha|]].
      - apply in_sql_join. split; [exact Hft|split; [exact Hpft|]].
        apply String.eqb_eq. exact Hname.
      - apply N.eqb_eq. exact Hrel. }
    destruct (sql_left_join_keeps _ (pg_description c)
                (fun l d => N.eqb (attrelid (snd l)) (objoid d)
                            && Z.eqb (attnum (snd l)) (objsubid d)) _ Hj)
      as (od & Hod).
    exists (get_def_select c (ft, pft, a, od)). split.
    + apply in_get_def_stmt. exists ft, pft, a, od. repeat split; auto.
    + simpl. repeat split.
  - intros c args r Hr. apply in_get_def_stmt in Hr.
    destruct Hr as (ft & pft & a & od & Hin & Hs & Hn & ->).
    unfold get_def_from in Hin. apply in_sql_left_join in Hin.
    destruct Hin as (Hj & _). apply in_sql_join in Hj.
    destruct Hj as (Hj & Ha & Hrel). apply in_sql_join in Hj.
    destruct Hj as (Hft & Hpft & Hname). simpl in Hrel.
    apply N.eqb_eq in Hrel. apply String.eqb_eq in Hname.
    exists ft, pft, a. simpl. repeat split; auto.
  - intros srv t t' w Hr. rewrite get_table_definition_ready by exact Hr.
    reflexivity.
  - vm_compute. reflexivity.
Qed.

(** C3.  On a ready manager [get_all_table_names] returns the names of the
    rows of information_schema.foreign_tables whose schema is akeyless, one
    per row, in the order of the rows: a name is returned exactly when such
    a row carries it, and nothing is returned when there is no such row. *)
Theorem get_all_table_names_lists_akeyless_foreign_tables
  (srv : Server) (w : World) :
  ready w ->
  exists names,
    fst (get_all_table_names srv w) = Return names
    /\ names = map foreign_table_name
                 (filter (fun ft => String.eqb (foreign_table_schema ft) akeyless)
                    (foreign_tables (catalog srv)))
    /\ (forall x, In x names <->
                  exists ft, In ft (foreign_tables (catalog srv))
                             /\ foreign_table_schema ft = akeyless
                             /\ foreign_table_name ft = x)
    /\ ((forall ft, In ft (foreign_tables (catalog srv)) ->
                    foreign_table_schema ft <> akeyless) ->
        names = []).
Proof.
  intro Hr. exists (get_all_tables_stmt (catalog srv)).
  split; [|split; [reflexivity|split]].
  - unfold get_all_table_names.
    rewrite (query_ready srv _ w ["foreign_table_name"]
               (map (fun s => [PStr s]) (get_all_tables_stmt (catalog srv))));
      [|exact Hr|reflexivity].
    unfold lift. simpl. apply omap_name_cell.
  - intro x. unfold get_all_tables_stmt, sql_where. rewrite in_map_iff. split.
    + intros (ft & Hx & Hin). apply filter_In in Hin.
      destruct Hin as (Hin & Hs). apply String.eqb_eq in Hs. eauto.
    + intros (ft & Hin & Hs & Hx). exists ft. split; [exact Hx|].
      apply filter_In. split; [exact Hin|]. apply String.eqb_eq. exact Hs.
  - intro Hnone. unfold get_all_tables_stmt, sql_where.
    induction (foreign_tables (catalog srv)) as [|ft rest IH]; [reflexivity|].
    simpl. destruct (String.eqb (foreign_table_schema ft) akeyless) eqn:E.
    + apply String.eqb_eq in E. exfalso. apply (Hnone ft); [left; reflexivity|exact E].
    + apply IH. intros ft' Hin. apply Hnone. right. exact Hin.
Qed.

(** C4.  When the introspection returns at least one row, the text of
    [get_table_definition] is the header [CREATE TABLE <name> (], a newline,
    one line [<column_name> <column_type>,] for each row but the last, the
    last row without the comma, a newline and [);].  So it begins with the
    header, ends with a newline and [);], and has no comma before the
    closing parenthesis.  (What is stripped at the end is every trailing
    comma and newline, so a last column type that itself ended with one
    would lose it; a type that does not is written whole.) *)
Theorem get_table_definition_text_for_some_rows
  (cs : pyobj -> string) (srv : Server) (t : string) (w : World) :
  ready w ->
  get_def_stmt (catalog srv) [PStr t] <> [] ->
  exists text init last,
    fst (get_table_definition cs srv t w) = Return text
    /\ get_def_stmt (catalog srv) [PStr t] = init ++ [last]
    /\ text = (create_table_header t ++ newline
               ++ column_lines init
               ++ column_name last ++ " " ++ rstrip strip_chars (column_type last)
               ++ newline ++ ");")%string
    /\ begins_with text (create_table_header t ++ newline)
    /\ ends_with text (newline ++ ");")
    /\ ~ ends_with text ("," ++ newline ++ ");")
    /\ (rstrip strip_chars (column_type last) = column_type last ->
        text = (create_table_header t ++ newline
                ++ join ("," ++ newline) (map column_entry (init ++ [last]))
                ++ newline ++ ");")%string).
Proof.
  intros Hr Hne.
  destruct (exists_last Hne) as (init & last & Hrows).
  exists (definition_text srv t), init, last.
  assert (Htext : definition_text srv t
                  = (create_table_header t ++ newline ++ column_lines init
                     ++ column_name last ++ " "
                     ++ rstrip strip_chars (column_type last)
                     ++ newline ++ ");")%string).
  { unfold definition_text. rewrite Hrows.
    rewrite <- (append_assoc (create_table_header t) newline).
    rewrite rstrip_column_lines, !append_assoc. reflexivity. }
  split; [rewrite get_table_definition_ready by exact Hr; reflexivity|].
  split; [exact Hrows|]. split; [exact Htext|].
  split; [|split; [|split]].
  - rewrite Htext. eexists. rewrite !append_assoc. reflexivity.
  - unfold definition_text. eexists. reflexivity.
  - intros (p & Hp). unfold definition_text in Hp.
    rewrite <- (append_assoc p "," (newline ++ ");")) in Hp.
    apply append_cancel_r in Hp.
    revert Hp. apply rstrip_last_kept. reflexivity.
  - intro Hfix. rewrite Htext, Hfix.
    pose proof (join_column_entries init last) as Hj.
    unfold strip_chars in Hj at 1. rewrite <- Hj. unfold column_entry.
    rewrite !append_assoc. reflexivity.
Qed.

(** C10.  When the introspection returns no row, [get_table_definition]
    raises nothing and returns [CREATE TABLE t (], a newline and [);]: the
    strip removes the newline after the opening parenthesis, and one newline
    is put back before [);]. *)
Theorem get_table_definition_text_for_no_rows
  (cs : pyobj -> string) (srv : Server) (t : string) (w : World) :
  ready w ->
  get_def_stmt (catalog srv) [PStr t] = [] ->
  fst (get_table_definition cs srv t w)
  = Return ("CREATE TABLE " ++ t ++ " (" ++ newline ++ ");")%string
  /\ rstrip strip_chars ("CREATE TABLE " ++ t ++ " (" ++ newline)
     = ("CREATE TABLE " ++ t ++ " (")%string.
Proof.
  intros Hr Hrows.
  assert (Hstrip : rstrip strip_chars ("CREATE TABLE " ++ t ++ " (" ++ newline)
                   = ("CREATE TABLE " ++ t ++ " (")%string).
  { change ("CREATE TABLE " ++ t ++ " (" ++ newline)%string
      with ("CREATE TABLE " ++ (t ++ (" (" ++ newline)))%string.
    rewrite <- append_assoc, rstrip_app_keep by (vm_compute; discriminate).
    rewrite append_assoc. reflexivity. }
  split; [|exact Hstrip].
  rewrite get_table_definition_ready by exact Hr.
  unfold definition_text. rewrite Hrows.
  change (column_lines []) with EmptyString.
  rewrite (append_nil_r newline).
  unfold create_table_header. cbn [fst]. f_equal.
  replace (("CREATE TABLE " ++ t ++ " (") ++ newline)%string
    with ("CREATE TABLE " ++ t ++ " (" ++ newline)%string
    by (rewrite !append_assoc; reflexivity).
  rewrite Hstrip. rewrite !append_assoc. reflexivity.
Qed.

(** ** Dictionaries *)

Lemma dict_get_set {V} (d : list (string * V)) (k k' : string) (v : V) :
  dict_get (dict_set d k v) k'
  = if String.eqb k' k then Some v else dict_get d k'.
Proof.
  induction d as [|[k0 v0] rest IH]; simpl.
  - reflexivity.
  - destruct (String.eqb k k0) eqn:E; simpl.
    + apply String.eqb_eq in E. subst k0.
      destruct (String.eqb k' k); reflexivity.
    + destruct (String.eqb k' k0) eqn:E'.
      * apply String.eqb_eq in E'. subst k0.
        rewrite String.eqb_sym in E. rewrite E. reflexivity.
      * exact IH.
Qed.

Lemma dict_keys_set {V} (d : list (string * V)) (k k' : string) (v : V) :
  In k' (map fst (dict_set d k v)) <-> k' = k \/ In k' (map fst d).
Proof.
  induction d as [|[k0 v0] rest IH]; simpl.
  - split; intros [H|H]; auto.
  - destruct (String.eqb k k0) eqn:E; simpl.
    + apply String.eqb_eq in E. subst k0. intuition.
    + rewrite IH. intuition.
Qed.

Lemma dict_in_set {V} (d : list (string * V)) (k k' : string) (v v' : V) :
  In (k', v') (dict_set d k v) -> (k' = k /\ v' = v) \/ In (k', v') d.
Proof.
  induction d as [|[k0 v0] rest IH]; simpl.
  - intros [H|[]]. injection H as <- <-. left. split; reflexivity.
  - destruct (String.eqb k k0) eqn:E; simpl.
    + apply String.eqb_eq in E. subst k0.
      intros [H|H]; [injection H as <- <-; left; split; reflexivity | right; right; exact H].
    + intros [H|H]; [right; left; exact H|].
      destruct (IH H) as [H'|H']; [left; exact H' | right; right; exact H'].
Qed.

Lemma dict_set_has_key {V} (d : list (string * V)) (k : string) (v : V) :
  In (k, v) (dict_set d k v).
Proof.
  induction d as [|[k0 v0] rest IH]; simpl.
  - left. reflexivity.
  - destruct (String.eqb k k0) eqn:E.
    + apply String.eqb_eq in E. subst k0. left. reflexivity.
    + right. exact IH.
Qed.

Lemma dict_set_keeps_other {V} (d : list (string * V)) (k k' : string) (v v' : V) :
  k' <> k -> In (k', v') d -> In (k', v') (dict_set d k v).
Proof.
  intros Hne. induction d as [|[k0 v0] rest IH]; simpl; [tauto|].
  destruct (String.eqb k k0) eqn:E.
  - apply String.eqb_eq in E. subst k0.
    intros [H|H]; [injection H as <- _; congruence | right; exact H].
  - intros [H|H]; [left; exact H | right; apply IH; exact H].
Qed.

(** ** Definitions of all tables *)

Lemma get_all_table_names_ready (srv : Server) (w : World) :
  ready w ->
  get_all_table_names srv w
  = (Return (get_all_tables_stmt (catalog srv)),
     after_query ["foreign_table_name"] w).
Proof.
  intro Hr. unfold get_all_table_names.
  rewrite (query_ready srv _ w ["foreign_table_name"]
             (map (fun s => [PStr s]) (get_all_tables_stmt (catalog srv))));
    [|exact Hr|reflexivity].
  unfold lift. rewrite omap_name_cell. reflexivity.
Qed.

Lemma fold_definitions_list cs (srv : Server) (names : list string) :
  forall (acc : list string) (w : World),
    ready w ->
    exists w',
      ready w'
      /\ fold_m (fun definitions table_name =>
                   bind (get_table_definition cs srv table_name)
                     (fun d => ret (definitions ++ [d])))
           names acc w
         = (Return (acc ++ map (definition_text srv) names), w').
Proof.
  induction names as [|t rest IH]; intros acc w Hr; simpl.
  - exists w. rewrite app_nil_r. split; [exact Hr | reflexivity].
  - unfold bind at 1. unfold bind at 1.
    rewrite get_table_definition_ready by exact Hr. unfold ret at 1.
    destruct (IH (acc ++ [definition_text srv t]) _
                (ready_after_query get_def_columns w Hr)) as (w' & Hr' & Heq).
    exists w'. split; [exact Hr'|]. rewrite Heq, <- app_assoc. reflexivity.
Qed.

Lemma fold_definitions_dict cs (srv : Server) (names : list string) :
  forall (acc : list (string * string)) (w : World),
    ready w ->
    exists w',
      ready w'
      /\ fold_m (fun definitions table_name =>
                   bind (get_table_definition cs srv table_name)
                     (fun d => ret (dict_set definitions table_name d)))
           names acc w
         = (Return (fold_left (fun d t => dict_set d t (definition_text srv t))
                      names acc), w').
Proof.
  induction names as [|t rest IH]; intros acc w Hr; simpl.
  - exists w. split; [exact Hr | reflexivity].
  - unfold bind at 1. unfold bind at 1.
    rewrite get_table_definition_ready by exact Hr. unfold ret at 1.
    destruct (IH (dict_set acc t (definition_text srv t)) _
                (ready_after_query get_def_columns w Hr)) as (w' & Hr' & Heq).
    exists w'. split; [exact Hr'|]. exact Heq.
Qed.

Lemma dict_get_fold_set {V} (f : string -> V) (names : list string) :
  forall (acc : list (string * V)) (k : string),
    dict_get (fold_left (fun d t => dict_set d t (f t)) names acc) k
    = if in_dec string_dec k names then Some (f k) else dict_get acc k.
Proof.
  induction names as [|t rest IH]; intros acc k; simpl; [reflexivity|].
  rewrite IH, dict_get_set.
  destruct (in_dec string_dec k rest) as [Hin|Hnin].
  - destruct (string_dec t k); reflexivity.
  - destruct (string_dec t k) as [->|Hne].
    + rewrite String.eqb_refl. reflexivity.
    + destruct (String.eqb k t) eqn:E; [|reflexivity].
      apply String.eqb_eq in E. congruence.
Qed.

Lemma dict_keys_fold_set {V} (f : string -> V) (names : list string) :
  forall (acc : list (string * V)) (k : string),
    In k (map fst (fold_left (fun d t => dict_set d t (f t)) names acc))
    <-> In k names \/ In k (map fst acc).
Proof.
  induction names as [|t rest IH]; intros acc k; simpl; [tauto|].
  rewrite IH, dict_keys_set. intuition.
Qed.

(** C5.  On a ready manager, with [names] the result of
    [get_all_table_names]: [get_table_definitions_for_prompt] returns the
    results of [get_table_definition] on each of [names], in that order,
    joined with two newline characters; and
    [get_table_definition_map_for_embeddings] returns a dictionary whose
    keys are exactly [names], each mapped to the result of
    [get_table_definition] on it. *)
Theorem definitions_for_prompt_and_map_follow_table_names
  (cs : pyobj -> string) (srv : Server) (w : World) :
  ready w ->
  exists names defs m,
    fst (get_all_table_names srv w) = Return names
    /\ Forall2 (fun t d => forall w', ready w' ->
                  fst (get_table_definition cs srv t w') = Return d) names defs
    /\ fst (get_table_definitions_for_prompt cs srv w)
       = Return (join (newline ++ newline) defs)
    /\ fst (get_table_definition_map_for_embeddings cs srv w) = Return m
    /\ (forall k, In k (map fst m) <-> In k names)
    /\ (forall k, In k names ->
          exists d, dict_get m k = Some d
                    /\ forall w', ready w' ->
                         fst (get_table_definition cs srv k w') = Return d)
    /\ (forall k, ~ In k names -> dict_get m k = None).
Proof.
  intro Hr.
  set (names := get_all_tables_stmt (catalog srv)).
  exists names, (map (definition_text srv) names),
    (fold_left (fun d t => dict_set d t (definition_text srv t)) names []).
  assert (Hr1 := ready_after_query ["foreign_table_name"] w Hr).
  split; [rewrite get_all_table_names_ready by exact Hr; reflexivity|].
  split.
  { induction names as [|t rest IH]; simpl; constructor; [|exact IH].
    intros w' Hw'. rewrite get_table_definition_ready by exact Hw'. reflexivity. }
  split.
  { unfold get_table_definitions_for_prompt.
    rewrite (bind_return _ _ _ _ _ (get_all_table_names_ready srv w Hr)).
    destruct (fold_definitions_list cs srv names [] _ Hr1) as (w' & _ & Heq).
    fold names. rewrite (bind_return _ _ _ _ _ Heq). reflexivity. }
  split.
  { unfold get_table_definition_map_for_embeddings.
    rewrite (bind_return _ _ _ _ _ (get_all_table_names_ready srv w Hr)).
    destruct (fold_definitions_dict cs srv names [] _ Hr1) as (w' & _ & Heq).
    fold names. rewrite Heq. reflexivity. }
  split.
  { intro k. rewrite dict_keys_fold_set. simpl. tauto. }
  split.
  { intros k Hin. exists (definition_text srv k). split.
    - rewrite dict_get_fold_set. destruct (in_dec string_dec k names); [reflexivity|contradiction].
    - intros w' Hw'. rewrite get_table_definition_ready by exact Hw'. reflexivity. }
  intros k Hnin. rewrite dict_get_fold_set.
  destruct (in_dec string_dec k names); [contradiction|reflexivity].
Qed.

(** ** Related tables *)

Lemma cur_execute_ready_error (srv : Server) (stmt : statement) (w : World)
  (e : exception) :
  ready w ->
  server_eval srv stmt = QError e ->
  cur_execute srv stmt w = (Raise e, failed_world w).
Proof.
  intros (k & c & Hk & Hc & Hko & Hkf & Hco) Hev.
  unfold cur_execute, bind, get_self. rewrite Hc. cbn [log fst snd self].
  rewrite Hk, Hco, Hko, Hkf, Hev. cbn.
  unfold failed_world. rewrite Hk. reflexivity.
Qed.

Lemma cur_execute_ready_refused (srv : Server) (stmt : statement) (w : World)
  (e : exception) :
  ready w ->
  server_eval srv stmt = QRefused e ->
  cur_execute srv stmt w = (Raise e, logged CallExecute w).
Proof.
  intros (k & c & Hk & Hc & Hko & Hkf & Hco) Hev.
  unfold cur_execute, bind, get_self. rewrite Hc. cbn [log fst snd self].
  rewrite Hk, Hco, Hko, Hev. reflexivity.
Qed.

(** On a ready manager the two lookups return what the server answers, and
    the manager is ready again when both succeeded. *)
Lemma related_lookups_eval (srv : Server) (n : Z) (t : string) (w : World) :
  ready w ->
  exists w',
    related_lookups srv n t w = (lookups_result (catalog srv) n t, w')
    /\ (is_return (lookups_result (catalog srv) n t) = true -> ready w').
Proof.
  intro Hr. unfold related_lookups, lookups_result.
  destruct (has_nul t) eqn:Enul.
  { erewrite bind_raise;
      [|apply cur_execute_ready_refused;
        [exact Hr|simpl; rewrite Enul; reflexivity]].
    eexists. split; [reflexivity|]. discriminate. }
  destruct (referencing_stmt (catalog srv) t n) as [a|e] eqn:Ea.
  - rewrite (query_ready srv _ w ["table_name"] (map (fun s => [PStr s]) a));
      [|exact Hr|simpl; rewrite Enul, Ea; reflexivity].
    unfold bind at 1. unfold lift at 1. rewrite omap_name_cell.
    assert (Hr1 := ready_after_query ["table_name"] w Hr).
    destruct (referenced_stmt (catalog srv) t n) as [b|e] eqn:Eb.
    + rewrite (query_ready srv _ _ ["referenced_table_name"]
                 (map (fun s => [PStr s]) b));
        [|exact Hr1|simpl; rewrite Enul, Eb; reflexivity].
      unfold bind, lift. rewrite omap_name_cell. unfold ret.
      eexists. split; [reflexivity|]. intros _.
      apply ready_after_query. exact Hr1.
    + erewrite bind_raise;
        [|apply cur_execute_ready_error;
          [exact Hr1|simpl; rewrite Enul, Eb; reflexivity]].
      eexists. split; [reflexivity|]. discriminate.
  - erewrite bind_raise;
      [|apply cur_execute_ready_error;
        [exact Hr|simpl; rewrite Enul, Ea; reflexivity]].
    eexists. split; [reflexivity|]. discriminate.
Qed.

Lemma fold_related_eval (srv : Server) (n : Z) (tl : list string) :
  forall (acc : list (string * list string)) (w : World),
    ready w ->
    exists w',
      fold_m (fun related_tables_dict table =>
                bind (related_lookups srv n table)
                  (fun related_tables =>
                     ret (dict_set related_tables_dict table related_tables)))
        tl acc w
      = (related_dict (catalog srv) n tl acc, w').
Proof.
  induction tl as [|t rest IH]; intros acc w Hr; simpl.
  - exists w. reflexivity.
  - destruct (related_lookups_eval srv n t w Hr) as (w1 & Heq & Hr1).
    unfold related_dict. simpl.
    destruct (lookups_result (catalog srv) n t) as [r|e] eqn:El.
    + destruct (IH (dict_set acc t r) w1 (Hr1 eq_refl)) as (w' & Heq').
      exists w'. unfold bind at 1. unfold bind at 1. rewrite Heq.
      unfold ret at 1. exact Heq'.
    + exists w1. unfold bind at 1. unfold bind at 1. rewrite Heq. reflexivity.
Qed.

Lemma get_related_tables_eval ls (srv : Server) (tl : list string) (n : Z)
  (w : World) :
  ready w ->
  fst (get_related_tables ls srv tl n w)
  = obind (related_dict (catalog srv) n tl [])
      (fun d => Return (ls (fold_left (fun acc kv => acc ++ snd kv) d []))).
Proof.
  intro Hr. unfold get_related_tables.
  destruct (fold_related_eval srv n tl [] w Hr) as (w' & Heq).
  unfold bind at 1. rewrite Heq.
  destruct (related_dict (catalog srv) n tl []); reflexivity.
Qed.

Lemma in_flatten {K A} (d : list (K * list A)) :
  forall (acc : list A) (x : A),
    In x (fold_left (fun acc kv => acc ++ snd kv) d acc)
    <-> In x acc \/ exists k v, In (k, v) d /\ In x v.
Proof.
  induction d as [|[k0 v0] rest IH]; intros acc x; simpl.
  - split; [tauto|]. intros [H|(k & v & [] & _)]. exact H.
  - rewrite IH, in_app_iff. split.
    + intros [[H|H]|(k & v & Hin & Hx)]; [tauto| |].
      * right. exists k0, v0. tauto.
      * right. exists k, v. tauto.
    + intros [H|(k & v & [Heq|Hin] & Hx)]; [tauto| |].
      * injection Heq as -> ->. tauto.
      * right. exists k, v. tauto.
Qed.

(** What the dictionary holds after the loop. *)
Lemma related_dict_entries (c : Catalog) (n : Z) (tl : list string) :
  forall acc d,
    related_dict c n tl acc = Return d ->
    (forall k v, In (k, v) d ->
                 In (k, v) acc \/ (In k tl /\ lookups_result c n k = Return v))
    /\ (forall k, In k tl -> exists v, In (k, v) d
                                       /\ lookups_result c n k = Return v)
    /\ (forall k v, In (k, v) acc ->
                    In (k, v) d
                    \/ exists v', In (k, v') d /\ lookups_result c n k = Return v').
Proof.
  induction tl as [|t rest IH]; intros acc d H.
  - injection H as <-. repeat split; intros; try tauto. contradiction.
  - unfold related_dict in H. simpl in H.
    destruct (lookups_result c n t) as [r|e] eqn:El; [|discriminate].
    simpl in H. destruct (IH _ _ H) as (I1 & I2 & I3).
    split; [|split].
    + intros k v Hk. destruct (I1 k v Hk) as [Hacc|[Hin Hl]].
      * apply dict_in_set in Hacc. destruct Hacc as [[-> ->]|Hacc].
        -- right. split; [left; reflexivity | exact El].
        -- left. exact Hacc.
      * right. split; [right; exact Hin | exact Hl].
    + intros k [<-|Hin].
      * destruct (I3 t r (dict_set_has_key acc t r)) as [Hd|(v' & Hd & Hl)].
        -- exists r. split; [exact Hd | exact El].
        -- exists v'. split; [exact Hd | exact Hl].
      * apply I2. exact Hin.
    + intros k v Hk. destruct (string_dec k t) as [->|Hne].
      * right. destruct (I3 t r (dict_set_has_key acc t r)) as [Hd|(v' & Hd & Hl)].
        -- exists r. split; [exact Hd | exact El].
        -- exists v'. split; [exact Hd | exact Hl].
      * apply I3. apply dict_set_keeps_other; assumption.
Qed.

Lemma lookups_result_inv (c : Catalog) (n : Z) (t : string) (r : list string) :
  lookups_result c n t = Return r ->
  has_nul t = false
  /\ exists a b, referencing_stmt c t n = Return a
                 /\ referenced_stmt c t n = Return b /\ r = a ++ b.
Proof.
  unfold lookups_result. destruct (has_nul t); [discriminate|].
  destruct (referencing_stmt c t n) as [a|]; [|discriminate].
  destruct (referenced_stmt c t n) as [b|]; [|discriminate].
  simpl. intro H. injection H as <-. split; [reflexivity|]. eauto.
Qed.

Lemma referencing_stmt_capped (c : Catalog) (t : string) (n : Z) (a : list string) :
  referencing_stmt c t n = Return a -> (Z.of_nat (length a) <= n)%Z.
Proof.
  unfold referencing_stmt.
  destruct (sql_limit_count n) as [count|] eqn:E; [|discriminate].
  apply sql_limit_count_inv in E. destruct E as (Hn & ->). cbn [obind].
  destruct (n =? 0)%Z.
  - intro H. injection H as <-. simpl. lia.
  - match goal with |- context [obind ?o _] => destruct o as [name|] end;
      [|discriminate].
    cbn [obind]. intro H. injection H as <-. apply sql_take_length. lia.
Qed.

Lemma referenced_stmt_capped (c : Catalog) (t : string) (n : Z) (b : list string) :
  referenced_stmt c t n = Return b -> (Z.of_nat (length b) <= n)%Z.
Proof. unfold referenced_stmt. apply sql_limit_length. Qed.

Lemma lookups_result_returns_iff (c : Catalog) (n : Z) (t : string) :
  (exists r, lookups_result c n t = Return r) <-> lookups_return c n t.
Proof.
  unfold lookups_result, lookups_return, referencing_stmt, referenced_stmt,
    sql_limit.
  destruct (has_nul t).
  { split; [intros (r & H); discriminate | intros (H & _); discriminate]. }
  destruct (sql_limit_count n) as [count|e] eqn:E.
  - apply sql_limit_count_inv in E. destruct E as (Hn & ->). simpl.
    destruct (n =? 0)%Z eqn:Ek.
    + apply Z.eqb_eq in Ek.
      split; [|simpl; eauto]. intros _. split; [reflexivity|].
      split; [exact Hn|]. left. exact Ek.
    + apply Z.eqb_neq in Ek. destruct (subquery_evaluated c t).
      * destruct (referencing_subquery c t) as [|x [|y rest]]; simpl.
        -- split; [|eauto]. intros _.
           split; [reflexivity|]. split; [exact Hn|]. right. right. lia.
        -- split; [|eauto]. intros _.
           split; [reflexivity|]. split; [exact Hn|]. right. right. lia.
        -- split; [intros (r & H); discriminate|].
           intros (_ & _ & [H|[H|H]]); [lia | discriminate | lia].
      * simpl. split; [|eauto]. intros _.
        split; [reflexivity|]. split; [exact Hn|]. right. left. reflexivity.
  - simpl. split; [intros (r & H); discriminate|].
    intros (_ & Hn & _). rewrite (sql_limit_count_ok n Hn) in E. discriminate.
Qed.

Lemma related_dict_returns_iff (c : Catalog) (n : Z) (tl : list string) :
  forall acc,
    (exists d, related_dict c n tl acc = Return d)
    <-> (forall t, In t tl -> exists r, lookups_result c n t = Return r).
Proof.
  induction tl as [|t rest IH]; intro acc.
  - split; [intros _ t [] | intros _; exists acc; reflexivity].
  - unfold related_dict. simpl. split.
    + intros (d & Hd) t' [<-|Hin].
      * destruct (lookups_result c n t); [eauto | discriminate].
      * destruct (lookups_result c n t) as [r|]; [|discriminate].
        simpl in Hd. apply (proj1 (IH (dict_set acc t r))); eauto.
    + intro Hall. destruct (Hall t (or_introl eq_refl)) as (r & ->). simpl.
      apply (proj2 (IH (dict_set acc t r))).
      intros t' Hin. apply Hall. right. exact Hin.
Qed.



(** ** Serialization *)

Lemma omap_ext {A B} (f g : A -> outcome B) (l : list A) :
  (forall x, In x l -> f x = g x) -> omap f l = omap g l.
Proof.
  induction l as [|x rest IH]; intro H; simpl; [reflexivity|].
  rewrite (H x (or_introl eq_refl)), IH; [reflexivity|].
  intros y Hy. apply H. right. exact Hy.
Qed.

Lemma omap_map {A B C} (f : B -> outcome C) (g : A -> B) (l : list A) :
  omap f (map g l) = omap (fun x => f (g x)) l.
Proof.
  induction l as [|x rest IH]; simpl; [reflexivity|]. rewrite IH. reflexivity.
Qed.

Lemma omap_total {A B} (f : A -> outcome B) (l : list A) :
  (forall x, In x l -> exists y, f x = Return y) ->
  exists ys, omap f l = Return ys.
Proof.
  induction l as [|x rest IH]; intro H; simpl; [eauto|].
  destruct (H x (or_introl eq_refl)) as (y & ->).
  destruct IH as (ys & ->); [intros z Hz; apply H; right; exact Hz|].
  simpl. eauto.
Qed.

Lemma depth_item (lst : list pyobj) (x : pyobj) :
  In x lst -> depth x < depth (PList lst).
Proof.
  simpl. induction lst as [|y rest IH]; intros []; simpl.
  - subst. lia.
  - specialize (IH H). lia.
Qed.

Lemma depth_value (dct : list (string * pyobj)) (kv : string * pyobj) :
  In kv dct -> depth (snd kv) < depth (PDict dct).
Proof.
  simpl. induction dct as [|y rest IH]; intros []; simpl.
  - subst. lia.
  - specialize (IH H). lia.
Qed.

Lemma iterencode_list_ext (f g : nat -> pyobj -> outcome string) lvl lst :
  (forall x, In x lst -> f (S lvl) x = g (S lvl) x) ->
  iterencode_list f lvl lst = iterencode_list g lvl lst.
Proof.
  intro H. unfold iterencode_list. destruct lst; [reflexivity|].
  rewrite (omap_ext _ _ _ H). reflexivity.
Qed.

Lemma iterencode_dict_ext (f g : nat -> pyobj -> outcome string) lvl dct :
  (forall kv, In kv dct -> f (S lvl) (snd kv) = g (S lvl) (snd kv)) ->
  iterencode_dict f lvl dct = iterencode_dict g lvl dct.
Proof.
  intro H. unfold iterencode_dict. destruct dct; [reflexivity|].
  erewrite omap_ext; [reflexivity|].
  intros kv Hkv. simpl. rewrite (H kv Hkv). reflexivity.
Qed.

(** A value made of types JSON knows is written without [default]. *)
Lemma iterencode_native (d1 d2 : pyobj -> outcome pyobj) (fuel : nat) :
  forall lvl o,
    all_native o = true ->
    iterencode fuel d1 lvl o = iterencode fuel d2 lvl o.
Proof.
  induction fuel as [|k IH]; intros lvl o Hn; [reflexivity|].
  destruct o; try reflexivity; try discriminate; cbn [iterencode].
  - apply iterencode_list_ext. intros x Hx. apply IH.
    simpl in Hn. rewrite forallb_forall in Hn. apply Hn. exact Hx.
  - apply iterencode_dict_ext. intros kv Hkv. apply IH.
    simpl in Hn. rewrite forallb_forall in Hn. apply Hn. exact Hkv.
Qed.

(** With the handler, a value is written as the value of the
    specification is written by the plain encoder. *)
Lemma iterencode_refines cs (fuel : nat) :
  forall lvl o,
    depth o + 2 <= fuel ->
    iterencode fuel (datetime_handler cs) lvl o
    = iterencode fuel no_default lvl (spec_json_value cs o).
Proof.
  induction fuel as [|k IH]; intros lvl o Hd; [lia|].
  destruct o; try reflexivity; cbn [iterencode spec_json_value].
  - unfold iterencode_list. destruct items as [|x rest]; [reflexivity|].
    change (map (spec_json_value cs) (x :: rest))
      with (spec_json_value cs x :: map (spec_json_value cs) rest).
    change (spec_json_value cs x :: map (spec_json_value cs) rest)
      with (map (spec_json_value cs) (x :: rest)).
    rewrite omap_map.
    rewrite (omap_ext (iterencode k (datetime_handler cs) (S lvl))
               (fun y => iterencode k no_default (S lvl) (spec_json_value cs y))).
    + reflexivity.
    + intros y Hy. apply IH. pose proof (depth_item _ _ Hy). lia.
  - unfold iterencode_dict. destruct items as [|x rest]; [reflexivity|].
    change (map (fun kv => (fst kv, spec_json_value cs (snd kv))) (x :: rest))
      with ((fst x, spec_json_value cs (snd x))
              :: map (fun kv => (fst kv, spec_json_value cs (snd kv))) rest).
    change ((fst x, spec_json_value cs (snd x))
              :: map (fun kv => (fst kv, spec_json_value cs (snd kv))) rest)
      with (map (fun kv => (fst kv, spec_json_value cs (snd kv))) (x :: rest)).
    rewrite omap_map.
    erewrite omap_ext; [reflexivity|].
    intros kv Hkv. cbn [fst snd]. rewrite IH; [reflexivity|].
    pose proof (depth_value _ _ Hkv). lia.
  - destruct k; [simpl in Hd; lia | reflexivity].
  - destruct k; [simpl in Hd; lia | reflexivity].
  - destruct k; [simpl in Hd; lia | reflexivity].
  - destruct k; [simpl in Hd; lia | reflexivity].
Qed.

(** With enough fuel the handler's encoder returns a text. *)
Lemma iterencode_total cs (fuel : nat) :
  forall lvl o,
    depth o + 2 <= fuel ->
    exists text, iterencode fuel (datetime_handler cs) lvl o = Return text.
Proof.
  induction fuel as [|k IH]; intros lvl o Hd; [lia|].
  destruct o; cbn [iterencode]; try (eexists; reflexivity).
  - destruct b; eexists; reflexivity.
  - unfold iterencode_list. destruct items as [|x rest]; [eexists; reflexivity|].
    destruct (omap_total (iterencode k (datetime_handler cs) (S lvl)) (x :: rest))
      as (ys & ->).
    + intros y Hy. apply IH. pose proof (depth_item _ _ Hy). lia.
    + simpl. eexists; reflexivity.
  - unfold iterencode_dict. destruct items as [|x rest]; [eexists; reflexivity|].
    match goal with |- context [omap ?f ?l] =>
      destruct (omap_total f l) as (ys & ->) end.
    + intros kv Hkv.
      destruct (IH (S lvl) (snd kv)) as (text & ->);
        [pose proof (depth_value _ _ Hkv); lia|].
      simpl. eexists; reflexivity.
    + simpl. eexists; reflexivity.
  - destruct k; [simpl in Hd; lia | eexists; reflexivity].
  - destruct k; [simpl in Hd; lia | eexists; reflexivity].
  - destruct k; [simpl in Hd; lia | eexists; reflexivity].
  - destruct k; [simpl in Hd; lia | eexists; reflexivity].
Qed.

Lemma run_sql_ready cs (fuel : nat) (srv : Server) (sql : string) (w : World)
  (columns : list string) (rows : list (list pyobj)) :
  ready w ->
  answer srv sql = QRows columns rows ->
  run_sql cs fuel srv sql w
  = (dumps fuel (datetime_handler cs) (dumps_argument columns rows),
     after_query columns w).
Proof.
  intros Hr Hans. unfold run_sql.
  rewrite (bind_return _ _ _ _ _
             (cur_execute_ready srv (StmtRaw sql) w columns rows Hr Hans)).
  rewrite (bind_return _ _ _ _ _ (cur_description_executed columns rows w)).
  unfold bind at 1. unfold ret at 1.
  rewrite (bind_return _ _ _ _ _ (cur_fetchall_executed columns rows w)).
  unfold bind, lift, ret, dumps_argument.
  destruct (dumps fuel (datetime_handler cs) _); reflexivity.
Qed.

(** C2.  In the JSON text [run_sql] produces, the handler turns a datetime
    into the JSON string of its ISO-8601 text (a date and a time of day go
    through [str()], which is their ISO-8601 text too); a value made of the
    types JSON knows is written as the plain encoder writes it, the handler
    not being consulted; any other value is written as the JSON string of
    its [str()] text.  For every value, with fuel above its nesting depth, the
    encoder returns a text, the one of the plain encoder on the value the
    specification describes; so for every result set [run_sql] returns the
    text of the list of row dictionaries and raises nothing. *)
Theorem run_sql_serializes_every_value (cs : pyobj -> string) :
  (forall fuel lvl d,
     iterencode (S (S fuel)) (datetime_handler cs) lvl (PDatetime d)
     = Return (encode_basestring_ascii (isoformat d)))
  /\ (forall fuel lvl d,
        iterencode (S (S fuel)) (datetime_handler cs) lvl (PDate d)
        = Return (encode_basestring_ascii (date_isoformat d)))
  /\ (forall fuel lvl t,
        iterencode (S (S fuel)) (datetime_handler cs) lvl (PTime t)
        = Return (encode_basestring_ascii (time_isoformat t)))
  /\ (forall fuel lvl o default,
        all_native o = true ->
        iterencode fuel (datetime_handler cs) lvl o
        = iterencode fuel default lvl o)
  /\ (forall fuel lvl o,
        json_native o = false -> is_datetime o = false ->
        iterencode (S (S fuel)) (datetime_handler cs) lvl o
        = Return (encode_basestring_ascii (py_str cs o)))
  /\ (forall fuel lvl o,
        depth o + 2 <= fuel ->
        exists text,
          iterencode fuel (datetime_handler cs) lvl o = Return text
          /\ iterencode fuel no_default lvl (spec_json_value cs o) = Return text)
  /\ (forall srv sql w columns rows fuel,
        ready w ->
        answer srv sql = QRows columns rows ->
        depth (dumps_argument columns rows) + 2 <= fuel ->
        exists text,
          fst (run_sql cs fuel srv sql w) = Return text
          /\ dumps fuel (datetime_handler cs) (dumps_argument columns rows)
             = Return text
          /\ dumps fuel no_default
               (spec_json_value cs (dumps_argument columns rows))
             = Return text).
Proof.
  split; [|split; [|split; [|split; [|split; [|split]]]]].
  - reflexivity.
  - reflexivity.
  - reflexivity.
  - intros fuel lvl o default Hn. apply iterencode_native. exact Hn.
  - intros fuel lvl o Hn Hd. destruct o; try discriminate; reflexivity.
  - intros fuel lvl o Hd.
    destruct (iterencode_total cs fuel lvl o Hd) as (text & Ht).
    exists text. split; [exact Ht|].
    rewrite <- iterencode_refines by exact Hd. exact Ht.
  - intros srv sql w columns rows fuel Hr Hans Hd.
    destruct (iterencode_total cs fuel 0 _ Hd) as (text & Ht).
    exists text. rewrite (run_sql_ready cs fuel srv sql w columns rows Hr Hans).
    split; [exact Ht|]. split; [exact Ht|].
    unfold dumps. rewrite <- iterencode_refines by exact Hd. exact Ht.
Qed.

(* ================================================================== *)
(** * The properties on the sample data *)

Lemma connected_world_ready : ready connected_world.
Proof.
  unfold ready. do 2 eexists. repeat split; reflexivity.
Defined.

Lemma connected_world_reachable :
  reachable sample_container_str sample_list_of_set connected_world.
Proof.
  exact (reach_step sample_container_str sample_list_of_set new_world
           (OpConnect sample_server sample_url)
           (reach_init sample_container_str sample_list_of_set)).
Defined.

(** C1 on the sample catalog: the column [user_id] of table orders is
    among the rows used for the definition of users. *)
Lemma get_table_definition_not_filtered_by_name_witness :
  exists r, In r (get_def_stmt sample_catalog [PStr "users"])
            /\ table_name r = "orders" /\ column_name r = "user_id"
            /\ column_type r = "integer".
Proof.
  destruct (get_table_definition_not_filtered_by_name sample_container_str)
    as (_ & Hall & _).
  apply (Hall sample_catalog [PStr "users"]
           {| foreign_table_schema := "akeyless"; foreign_table_name := "orders" |}
           {| ftrelid := 2 |}
           {| attrelid := 2; attname := "user_id"; atttypid := 23;
              atttypmod := -1; attnum := 2 |});
    simpl; try reflexivity; try tauto; lia.
Defined.

(** C2 on the sample server: one row with a datetime and a Decimal. *)
Lemma run_sql_serializes_every_value_witness :
  exists text,
    fst (run_sql sample_container_str 5 sample_server
           "SELECT created, price FROM orders" connected_world) = Return text
    /\ dumps 5 no_default
         (PList [PDict [("created", PStr "2024-03-09T14:05:07+01:00");
                        ("price", PStr "9.50")]])
       = Return text.
Proof.
  destruct (run_sql_serializes_every_value sample_container_str)
    as (_ & _ & _ & _ & _ & _ & Hrun).
  destruct (Hrun sample_server "SELECT created, price FROM orders"
              connected_world ["created"; "price"]
              [[PDatetime sample_datetime; PObject "Decimal" "9.50"]] 5
              connected_world_ready eq_refl)
    as (text & Hrun1 & _ & Hspec).
  - simpl. lia.
  - exists text. split; [exact Hrun1 | exact Hspec].
Defined.

(** C3 on the sample catalog: the two foreign tables of akeyless, not the
    one of public. *)
Lemma get_all_table_names_lists_akeyless_foreign_tables_witness :
  ready connected_world
  /\ fst (get_all_table_names sample_server connected_world)
     = Return ["users"; "orders"].
Proof.
  split; [exact connected_world_ready|].
  destruct (get_all_table_names_lists_akeyless_foreign_tables sample_server
              connected_world connected_world_ready)
    as (names & Hret & Hnames & _).
  rewrite Hret, Hnames. reflexivity.
Defined.

(** C4 on the sample catalog: four rows. *)
Lemma get_table_definition_text_for_some_rows_witness :
  ready connected_world
  /\ get_def_stmt (catalog sample_server) [PStr "users"] <> []
  /\ exists text,
       fst (get_table_definition sample_container_str sample_server "users"
              connected_world) = Return text
       /\ ends_with text (newline ++ ");")
       /\ ~ ends_with text ("," ++ newline ++ ");").
Proof.
  assert (Hne : get_def_stmt (catalog sample_server) [PStr "users"] <> [])
    by (vm_compute; discriminate).
  split; [exact connected_world_ready|]. split; [exact Hne|].
  destruct (get_table_definition_text_for_some_rows sample_container_str
              sample_server "users" connected_world connected_world_ready Hne)
    as (text & init & last & Hret & _ & _ & _ & Hend & Hcomma & _).
  exists text. split; [exact Hret|]. split; [exact Hend | exact Hcomma].
Defined.

(** C5 on the sample catalog. *)
Lemma definitions_for_prompt_and_map_follow_table_names_witness :
  ready connected_world
  /\ exists names defs,
       fst (get_all_table_names sample_server connected_world) = Return names
       /\ fst (get_table_definitions_for_prompt sample_container_str
                 sample_server connected_world)
          = Return (join (newline ++ newline) defs).
Proof.
  split; [exact connected_world_ready|].
  destruct (definitions_for_prompt_and_map_follow_table_names
              sample_container_str sample_server connected_world
              connected_world_ready)
    as (names & defs & m & Hnames & _ & Hprompt & _).
  exists names, defs. split; [exact Hnames | exact Hprompt].
Defined.


(** C7 on the sample server: close twice after a connect. *)
Lemma close_raises_nothing_and_is_idempotent_witness :
  connect_with_url sample_server sample_url new_world
  = (Return tt, connected_world)
  /\ fst (close (snd (close connected_world))) = Return tt
  /\ self (snd (close (snd (close connected_world))))
     = self (snd (close connected_world)).
Proof.
  assert (Hc : connect_with_url sample_server sample_url new_world
               = (Return tt, connected_world)) by reflexivity.
  split; [exact Hc|].
  destruct close_raises_nothing_and_is_idempotent as (_ & _ & _ & Htwice & _).
  exact (Htwice sample_server sample_url connected_world Hc).
Defined.

(** C8 on the sample server: a scope whose body connects and then raises. *)
Lemma scoped_acquisition_cleans_up_and_propagates_witness :
  with_scope (fun _ => bind (connect_with_url sample_server sample_url)
                         (fun _ => @raise unit (UserException "boom")))
    new_world
  = (Raise (UserException "boom"), snd (close connected_world)).
Proof.
  destruct scoped_acquisition_cleans_up_and_propagates
    as (_ & _ & _ & _ & Hraise).
  apply (Hraise unit _ new_world (UserException "boom") connected_world).
  reflexivity.
Defined.

(** C9, the claim as stated fails: after a connect, [close] leaves both
    handles on the manager. *)
Lemma close_does_not_return_to_unopened :
  reachable sample_container_str sample_list_of_set connected_world
  /\ conn (self (snd (close connected_world)))
     = Some {| dsn := sample_url; conn_closed := true;
               in_failed_transaction := false |}
  /\ cur (self (snd (close connected_world)))
     = Some {| cur_closed := true; description := None; pending := None |}
  /\ ~ (forall w,
          reachable sample_container_str sample_list_of_set w ->
          conn (self (snd (close w))) = None /\ cur (self (snd (close w))) = None).
Proof.
  split; [exact connected_world_reachable|].
  split; [reflexivity|]. split; [reflexivity|].
  intro H. destruct (H connected_world connected_world_reachable) as (Hk & _).
  discriminate Hk.
Qed.

(** C9 as amended, on the sample server. *)
Lemma handles_paired_and_kept_by_close_witness :
  reachable sample_container_str sample_list_of_set
    (snd (close connected_world))
  /\ paired (self (snd (close connected_world))).
Proof.
  assert (Hr : reachable sample_container_str sample_list_of_set
                 (snd (close connected_world))).
  { exact (reach_step sample_container_str sample_list_of_set connected_world
             OpClose connected_world_reachable). }
  split; [exact Hr|].
  destruct (handles_paired_and_kept_by_close sample_container_str
              sample_list_of_set) as (Hinv & _).
  exact (Hinv _ Hr).
Defined.

(** C10 on the empty catalog. *)
Lemma get_table_definition_text_for_no_rows_witness :
  ready connected_world
  /\ get_def_stmt (catalog empty_server) [PStr "users"] = []
  /\ fst (get_table_definition sample_container_str empty_server "users"
            connected_world)
     = Return ("CREATE TABLE users (" ++ newline ++ ");")%string.
Proof.
  split; [exact connected_world_ready|]. split; [reflexivity|].
  apply (get_table_definition_text_for_no_rows sample_container_str
           empty_server "users" connected_world connected_world_ready eq_refl).
Defined.

(* ================================================================== *)
(** * Further properties of the manager *)

(** ** Queries on a manager that cannot run them *)

Lemma cur_execute_no_cursor (srv : Server) (stmt : statement) (w : World) :
  cur (self w) = None ->
  cur_execute srv stmt w = (Raise no_cursor_error, w).
Proof.
  intro H. unfold cur_execute, bind, get_self. rewrite H. reflexivity.
Qed.

Lemma cur_execute_closed_cursor (srv : Server) (stmt : statement) (w : World)
  (c : cursor) :
  cur (self w) = Some c -> cur_closed c = true ->
  cur_execute srv stmt w = (Raise closed_cursor_error, logged CallExecute w).
Proof.
  intros Hc Hclosed. unfold cur_execute, bind, get_self. rewrite Hc.
  cbn [log fst snd self]. rewrite Hclosed. reflexivity.
Qed.



(** When the first [execute] of a method raises, the method ends there. *)
Lemma queries_stop_at_first_execute cs ls (srv : Server) (w w' : World)
  (e : exception) :
  (forall stmt, cur_execute srv stmt w = (Raise e, w')) ->
  (forall fuel sql, run_sql cs fuel srv sql w = (Raise e, w'))
  /\ (forall t, get_table_definition cs srv t w = (Raise e, w'))
  /\ get_all_table_names srv w = (Raise e, w')
  /\ get_table_definitions_for_prompt cs srv w = (Raise e, w')
  /\ get_table_definition_map_for_embeddings cs srv w = (Raise e, w')
  /\ (forall t rest n,
        get_related_tables ls srv (t :: rest) n w = (Raise e, w')).
Proof.
  intro Hex.
  assert (Hnames : get_all_table_names srv w = (Raise e, w')).
  { unfold get_all_table_names. apply bind_raise. apply Hex. }
  split; [|split; [|split; [|split; [|split]]]].
  - intros fuel sql. unfold run_sql. apply bind_raise. apply Hex.
  - intro t. unfold get_table_definition. apply bind_raise. apply Hex.
  - exact Hnames.
  - unfold get_table_definitions_for_prompt. apply bind_raise. exact Hnames.
  - unfold get_table_definition_map_for_embeddings. apply bind_raise.
    exact Hnames.
  - intros t rest n. unfold get_related_tables. apply bind_raise.
    cbn [fold_m]. apply bind_raise. apply bind_raise.
    unfold related_lookups. apply bind_raise. apply Hex.
Qed.

(** X1.  On a manager whose cursor is absent (never connected), every
    query method raises the AttributeError of [self.cur.execute] on [None],
    makes no driver call and changes nothing; [get_related_tables] does so
    as soon as its table list is not empty. *)
Theorem queries_without_cursor_raise_attribute_error
  (cs : pyobj -> string) (ls : list string -> list string)
  (srv : Server) (w : World) :
  cur (self w) = None ->
  (forall fuel sql, run_sql cs fuel srv sql w = (Raise no_cursor_error, w))
  /\ (forall t, get_table_definition cs srv t w = (Raise no_cursor_error, w))
  /\ get_all_table_names srv w = (Raise no_cursor_error, w)
  /\ get_table_definitions_for_prompt cs srv w = (Raise no_cursor_error, w)
  /\ get_table_definition_map_for_embeddings cs srv w
     = (Raise no_cursor_error, w)
  /\ (forall t rest n,
        get_related_tables ls srv (t :: rest) n w = (Raise no_cursor_error, w)).
Proof.
  intro H. apply queries_stop_at_first_execute.
  intro stmt. apply cur_execute_no_cursor. exact H.
Qed.

Lemma queries_without_cursor_raise_attribute_error_witness :
  cur (self new_world) = None
  /\ run_sql sample_container_str 5 sample_server "SELECT 1" new_world
     = (Raise no_cursor_error, new_world).
Proof.
  split; [reflexivity|].
  apply (queries_without_cursor_raise_attribute_error sample_container_str
           sample_list_of_set sample_server new_world eq_refl).
Defined.

(** X2.  After [close] on a manager that holds a cursor, every query method
    asks the closed cursor to execute and raises the driver's
    InterfaceError; the handles stay as [close] left them. *)
Theorem queries_after_close_raise_interface_error
  (cs : pyobj -> string) (ls : list string -> list string)
  (srv : Server) (w : World) :
  cur (self w) <> None ->
  let w1 := snd (close w) in
  let w2 := logged CallExecute w1 in
  self w2 = self w1
  /\ (forall fuel sql, run_sql cs fuel srv sql w1 = (Raise closed_cursor_error, w2))
  /\ (forall t, get_table_definition cs srv t w1 = (Raise closed_cursor_error, w2))
  /\ get_all_table_names srv w1 = (Raise closed_cursor_error, w2)
  /\ get_table_definitions_for_prompt cs srv w1 = (Raise closed_cursor_error, w2)
  /\ get_table_definition_map_for_embeddings cs srv w1
     = (Raise closed_cursor_error, w2)
  /\ (forall t rest n,
        get_related_tables ls srv (t :: rest) n w1
        = (Raise closed_cursor_error, w2)).
Proof.
  intros H w1 w2. split; [reflexivity|].
  apply queries_stop_at_first_execute. intro stmt.
  destruct (cur (self w)) as [c|] eqn:Ec; [|congruence].
  apply (cur_execute_closed_cursor srv stmt w1 (cursor_close c)).
  - unfold w1. rewrite close_eq. simpl. rewrite Ec. reflexivity.
  - reflexivity.
Qed.

Lemma queries_after_close_raise_interface_error_witness :
  cur (self connected_world) <> None
  /\ fst (get_all_table_names sample_server (snd (close connected_world)))
     = Raise closed_cursor_error.
Proof.
  assert (H : cur (self connected_world) <> None) by discriminate.
  split; [exact H|].
  destruct (queries_after_close_raise_interface_error sample_container_str
              sample_list_of_set sample_server connected_world H)
    as (_ & _ & _ & Hnames & _).
  rewrite Hnames. reflexivity.
Defined.

(** ** Statements without rows and statements that fail *)

Lemma cur_execute_ready_no_result (srv : Server) (stmt : statement) (w : World) :
  ready w ->
  server_eval srv stmt = QNoResult ->
  cur_execute srv stmt w = (Return tt, executed_no_result w).
Proof.
  intros (k & c & Hk & Hc & Hko & Hkf & Hco) Hev.
  unfold cur_execute, bind, get_self. rewrite Hc. cbn [log fst snd self].
  rewrite Hk, Hco, Hko, Hkf, Hev. reflexivity.
Qed.

Lemma ready_executed_no_result (w : World) :
  ready w -> ready (executed_no_result w).
Proof.
  intros (k & c & Hk & Hc & Hko & Hkf & Hco).
  exists k. eexists. simpl. repeat split; eauto.
Qed.


(** X3.  For a statement that returns no rows (the cursor's [description]
    is [None]), [run_sql] on a ready manager sends the statement to the
    server and then raises TypeError while reading the column names: the
    statement has run, [fetchall] is never called, and the manager is still
    ready. *)
Theorem run_sql_without_result_set_raises_type_error
  (cs : pyobj -> string) (fuel : nat) (srv : Server) (sql : string)
  (w : World) :
  ready w ->
  answer srv sql = QNoResult ->
  run_sql cs fuel srv sql w
  = (Raise (TypeError "'NoneType' object is not iterable"),
     executed_no_result w)
  /\ calls (executed_no_result w) = calls w ++ [CallExecute]
  /\ ready (executed_no_result w).
Proof.
  intros Hr Hans. split; [|split].
  - unfold run_sql.
    rewrite (bind_return _ _ _ _ _
               (cur_execute_ready_no_result srv (StmtRaw sql) w Hr Hans)).
    reflexivity.
  - reflexivity.
  - apply ready_executed_no_result. exact Hr.
Qed.

Lemma run_sql_without_result_set_raises_type_error_witness :
  ready connected_world
  /\ answer empty_server "DELETE FROM orders" = QNoResult
  /\ fst (run_sql sample_container_str 5 empty_server "DELETE FROM orders"
            connected_world)
     = Raise (TypeError "'NoneType' object is not iterable").
Proof.
  split; [exact connected_world_ready|]. split; [reflexivity|].
  destruct (run_sql_without_result_set_raises_type_error sample_container_str 5
              empty_server "DELETE FROM orders" connected_world
              connected_world_ready eq_refl) as (Hrun & _).
  rewrite Hrun. reflexivity.
Defined.





(** ** Row dictionaries *)

Lemma dict_set_keys_nodup {V} (d : list (string * V)) (k : string) (v : V) :
  NoDup (map fst d) -> NoDup (map fst (dict_set d k v)).
Proof.
  induction d as [|[k0 v0] rest IH]; simpl; intro Hnd.
  - constructor; [intros [] | constructor].
  - inversion Hnd as [|? ? Hnotin Hrest]; subst.
    destruct (String.eqb k k0) eqn:E; simpl.
    + exact Hnd.
    + constructor; [|apply IH; exact Hrest].
      intro Hin. apply dict_keys_set in Hin. destruct Hin as [Heq|Hin].
      * subst k0. rewrite String.eqb_refl in E. discriminate.
      * contradiction.
Qed.

Lemma dict_set_length {V} (d : list (string * V)) (k : string) (v : V) :
  length (dict_set d k v) <= S (length d).
Proof.
  induction d as [|[k0 v0] rest IH]; simpl; [lia|].
  destruct (String.eqb k k0); simpl; lia.
Qed.

Lemma dict_get_app {V} (a b : list (string * V)) (k : string) :
  dict_get (a ++ b) k
  = match dict_get a k with Some v => Some v | None => dict_get b k end.
Proof.
  induction a as [|[k0 v0] rest IH]; simpl; [reflexivity|].
  destruct (String.eqb k k0); [reflexivity | exact IH].
Qed.

Lemma dict_fold_facts {V} (pairs : list (string * V)) :
  forall acc,
    let d := fold_left (fun d kv => dict_set d (fst kv) (snd kv)) pairs acc in
    (NoDup (map fst acc) -> NoDup (map fst d))
    /\ (forall k, dict_get d k
                  = match dict_get (rev pairs) k with
                    | Some v => Some v
                    | None => dict_get acc k
                    end)
    /\ (forall k, In k (map fst d) <-> In k (map fst pairs) \/ In k (map fst acc))
    /\ length d <= length pairs + length acc.
Proof.
  induction pairs as [|[k1 v1] rest IH]; intro acc; simpl.
  - repeat split; auto; tauto.
  - destruct (IH (dict_set acc k1 v1)) as (I1 & I2 & I3 & I4).
    split; [|split; [|split]].
    + intro Hnd. apply I1. apply dict_set_keys_nodup. exact Hnd.
    + intro k. rewrite I2, dict_get_app, dict_get_set. simpl.
      destruct (dict_get (rev rest) k); [reflexivity|].
      destruct (String.eqb k k1); reflexivity.
    + intro k. rewrite I3, dict_keys_set. intuition.
    + pose proof (dict_set_length acc k1 v1). lia.
Qed.

(** X6.  The dictionary [run_sql] builds for a row, [dict(zip(columns,
    row))], has each column name once: when two columns of the result have
    the same name, the row keeps one entry for it, holding the value of the
    last of them.  Its keys are the column names that have a value, and it
    has at most as many entries as there are columns. *)
Theorem row_dict_keeps_last_value_of_duplicate_columns
  (columns : list string) (row : list pyobj) :
  let d := dict_of (combine columns row) in
  NoDup (map fst d)
  /\ (forall k, dict_get d k = dict_get (rev (combine columns row)) k)
  /\ (forall k, In k (map fst d) <-> In k (map fst (combine columns row)))
  /\ length d <= length columns
  /\ (forall k v1 v2,
        columns = [k; k] -> row = [v1; v2] -> d = [(k, v2)]).
Proof.
  intro d. unfold d, dict_of.
  destruct (dict_fold_facts (combine columns row) []) as (I1 & I2 & I3 & I4).
  split; [apply I1; constructor|]. split; [|split; [|split]].
  - intro k. rewrite I2. destruct (dict_get (rev (combine columns row)) k);
      reflexivity.
  - intro k. rewrite I3. simpl. tauto.
  - rewrite length_combine in I4. simpl in I4. lia.
  - intros k v1 v2 -> ->. simpl. rewrite String.eqb_refl. reflexivity.
Qed.

(** ** A schema without foreign tables, an empty table list *)

Lemma get_all_tables_stmt_nil (c : Catalog) :
  (forall ft, In ft (foreign_tables c) -> foreign_table_schema ft <> akeyless) ->
  get_all_tables_stmt c = [].
Proof.
  intro Hnone. unfold get_all_tables_stmt, sql_where.
  induction (foreign_tables c) as [|ft rest IH]; [reflexivity|].
  simpl. destruct (String.eqb (foreign_table_schema ft) akeyless) eqn:E.
  - apply String.eqb_eq in E. exfalso.
    apply (Hnone ft); [left; reflexivity | exact E].
  - apply IH. intros ft' Hin. apply Hnone. right. exact Hin.
Qed.

(** X7.  When schema akeyless has no foreign table,
    [get_table_definitions_for_prompt] returns the empty text and
    [get_table_definition_map_for_embeddings] the empty dictionary, after
    the one statement that lists the names: no definition is asked for. *)
Theorem no_foreign_tables_give_empty_prompt_and_map
  (cs : pyobj -> string) (srv : Server) (w : World) :
  ready w ->
  (forall ft, In ft (foreign_tables (catalog srv)) ->
              foreign_table_schema ft <> akeyless) ->
  get_table_definitions_for_prompt cs srv w
  = (Return EmptyString, after_query ["foreign_table_name"] w)
  /\ get_table_definition_map_for_embeddings cs srv w
     = (Return [], after_query ["foreign_table_name"] w)
  /\ calls (after_query ["foreign_table_name"] w)
     = calls w ++ [CallExecute; CallFetchall].
Proof.
  intros Hr Hnone.
  pose proof (get_all_table_names_ready srv w Hr) as Hnames.
  rewrite (get_all_tables_stmt_nil _ Hnone) in Hnames.
  split; [|split].
  - unfold get_table_definitions_for_prompt.
    rewrite (bind_return _ _ _ _ _ Hnames). reflexivity.
  - unfold get_table_definition_map_for_embeddings.
    rewrite (bind_return _ _ _ _ _ Hnames). reflexivity.
  - reflexivity.
Qed.

Lemma no_foreign_tables_give_empty_prompt_and_map_witness :
  ready connected_world
  /\ fst (get_table_definitions_for_prompt sample_container_str empty_server
            connected_world) = Return EmptyString.
Proof.
  split; [exact connected_world_ready|].
  destruct (no_foreign_tables_give_empty_prompt_and_map sample_container_str
              empty_server connected_world connected_world_ready)
    as (Hprompt & _).
  - intros ft [].
  - rewrite Hprompt. reflexivity.
Defined.

(** X8.  With an empty table list [get_related_tables] returns the empty
    list without any driver call, in every state of the manager, connected
    or not. *)
Theorem get_related_tables_of_no_table
  (ls : list string -> list string)
  (Hset : forall l, Permutation (ls l) (nodup string_dec l))
  (srv : Server) (n : Z) (w : World) :
  get_related_tables ls srv [] n w = (Return [], w).
Proof.
  unfold get_related_tables. simpl. unfold bind, ret. simpl.
  specialize (Hset []). simpl in Hset.
  apply Permutation_sym, Permutation_nil in Hset. rewrite Hset. reflexivity.
Qed.

Lemma get_related_tables_of_no_table_witness :
  (forall l, Permutation (sample_list_of_set l) (nodup string_dec l))
  /\ get_related_tables sample_list_of_set sample_server [] default_n new_world
     = (Return [], new_world).
Proof.
  assert (Hset : forall l, Permutation (sample_list_of_set l) (nodup string_dec l))
    by (intro l; apply Permutation_refl).
  split; [exact Hset|].
  apply (get_related_tables_of_no_table sample_list_of_set Hset).
Defined.

Lemma row_dict_keeps_last_value_of_duplicate_columns_witness :
  dict_of (combine ["id"; "id"] [PInt 1; PInt 2]) = [("id", PInt 2)].
Proof.
  destruct (row_dict_keeps_last_value_of_duplicate_columns
              ["id"; "id"] [PInt 1; PInt 2]) as (_ & _ & _ & _ & H).
  exact (H "id" (PInt 1) (PInt 2) eq_refl eq_refl).
Defined.

(** ** Limits and tables without constraints *)

(** The names in the result of [get_related_tables], read off the answers
    of the server. *)
Lemma in_related_result ls
  (Hset : forall l, Permutation (ls l) (nodup string_dec l))
  (c : Catalog) (n : Z) (tl : list string) (d : list (string * list string)) :
  related_dict c n tl [] = Return d ->
  forall x,
    In x (ls (fold_left (fun acc kv => acc ++ snd kv) d []))
    <-> exists t v, In t tl /\ lookups_result c n t = Return v /\ In x v.
Proof.
  intros Hd x.
  destruct (related_dict_entries _ _ _ _ _ Hd) as (I1 & I2 & _).
  split.
  - intro Hx. apply (Permutation_in _ (Hset _)) in Hx.
    apply nodup_In in Hx. apply in_flatten in Hx.
    destruct Hx as [[]|(k & v & Hkv & Hxv)].
    destruct (I1 k v Hkv) as [[]|(Hk & Hl)]. eauto.
  - intros (t & v & Ht & Hl & Hx).
    apply (Permutation_in _ (Permutation_sym (Hset _))).
    apply nodup_In. apply in_flatten. right.
    destruct (I2 t Ht) as (v' & Hv' & Hl'). exists t, v'.
    split; [exact Hv'|]. congruence.
Qed.

Lemma no_element_nil {A} (l : list A) : (forall x, ~ In x l) -> l = [].
Proof.
  destruct l as [|x rest]; [reflexivity|]. intro H.
  exfalso. apply (H x). left. reflexivity.
Qed.

(** X9.  The limit [n] of [get_related_tables] on a ready manager: with
    [n = 0] and names the driver can bind, the call returns the empty list,
    whatever the constraints are (under LIMIT 0 the server reads no row and
    never evaluates the subquery); with a negative [n], or one above the
    largest bigint, and at least one table the call raises and returns
    nothing. *)
Theorem get_related_tables_limit_zero_and_negative
  (ls : list string -> list string)
  (Hset : forall l, Permutation (ls l) (nodup string_dec l))
  (srv : Server) (w : World) :
  ready w ->
  (forall tl,
     (forall t, In t tl -> has_nul t = false) ->
     fst (get_related_tables ls srv tl 0 w) = Return [])
  /\ (forall t rest n,
        (n < 0)%Z \/ (bigint_max < n)%Z ->
        is_return (fst (get_related_tables ls srv (t :: rest) n w)) = false).
Proof.
  intro Hr. split.
  - intros tl Hnul. rewrite get_related_tables_eval by exact Hr.
    destruct (proj2 (related_dict_returns_iff (catalog srv) 0 tl []))
      as (d & Hd).
    { intros t Ht. apply lookups_result_returns_iff.
      split; [apply Hnul; exact Ht|].
      split; [unfold bigint_max; lia | left; reflexivity]. }
    rewrite Hd. simpl. f_equal.
    apply no_element_nil. intros x Hx.
    apply (in_related_result ls Hset _ _ _ _ Hd) in Hx.
    destruct Hx as (t & v & _ & Hl & Hxv).
    destruct (lookups_result_inv _ _ _ _ Hl) as (_ & a & b & Ha & Hb & ->).
    apply referencing_stmt_capped in Ha. apply referenced_stmt_capped in Hb.
    destruct a; [|simpl in Ha; lia]. destruct b; [|simpl in Hb; lia].
    destruct Hxv.
  - intros t rest n Hn. rewrite get_related_tables_eval by exact Hr.
    unfold related_dict. simpl.
    assert (Hl : exists e, lookups_result (catalog srv) n t = Raise e).
    { unfold lookups_result, referencing_stmt.
      destruct (has_nul t); [eauto|].
      destruct (sql_limit_count_raises n Hn) as (e & ->). simpl. eauto. }
    destruct Hl as (e & ->). reflexivity.
Qed.

Lemma get_related_tables_limit_zero_and_negative_witness :
  ready connected_world
  /\ (forall l, Permutation (sample_list_of_set l) (nodup string_dec l))
  /\ fst (get_related_tables sample_list_of_set sample_server
            ["orders"; "users"] 0 connected_world) = Return []
  /\ is_return (fst (get_related_tables sample_list_of_set sample_server
                       ["orders"] (-1) connected_world)) = false.
Proof.
  assert (Hset : forall l, Permutation (sample_list_of_set l) (nodup string_dec l))
    by (intro l; apply Permutation_refl).
  split; [exact connected_world_ready|]. split; [exact Hset|].
  destruct (get_related_tables_limit_zero_and_negative sample_list_of_set Hset
              sample_server connected_world connected_world_ready)
    as (Hzero & Hneg).
  split.
  - apply Hzero. intros t [<-|[<-|[]]]; reflexivity.
  - apply Hneg. left. reflexivity.
Defined.

Lemma referencing_subquery_nil (c : Catalog) (t : string) :
  (forall tc, In tc (table_constraints c) ->
              tc_constraint_schema tc = akeyless -> tc_table_name tc = t ->
              tc_constraint_type tc <> "FOREIGN KEY") ->
  referencing_subquery c t = [].
Proof.
  intro Hnone. unfold referencing_subquery.
  apply no_element_nil. intros x Hx. apply in_map_iff in Hx.
  destruct Hx as ([tc ccu] & _ & Hin). apply filter_In in Hin.
  destruct Hin as (Hj & Hw). apply in_sql_join in Hj.
  destruct Hj as (Htc & _ & _). simpl in Hw.
  apply andb_prop in Hw. destruct Hw as (Hw & Hty).
  apply andb_prop in Hw. destruct Hw as (Hs & Hn).
  apply String.eqb_eq in Hs, Hn, Hty.
  exact (Hnone tc Htc Hs Hn Hty).
Qed.

(** X10.  A table that has no FOREIGN KEY constraint of its own in schema
    akeyless gets no name from the first lookup, whatever the constraints
    of the other tables are: the subquery yields no row and the comparison
    with NULL keeps nothing.  For a name the driver can bind and a count
    the server takes, what [get_related_tables] collects for such a table
    is the answer to the second lookup alone. *)
Theorem first_lookup_empty_without_own_foreign_key
  (srv : Server) (t : string) (n : Z) (w : World) :
  ready w ->
  has_nul t = false ->
  (0 <= n <= bigint_max)%Z ->
  (forall tc, In tc (table_constraints (catalog srv)) ->
              tc_constraint_schema tc = akeyless -> tc_table_name tc = t ->
              tc_constraint_type tc <> "FOREIGN KEY") ->
  referencing_stmt (catalog srv) t n = Return []
  /\ fst (related_lookups srv n t w) = referenced_stmt (catalog srv) t n.
Proof.
  intros Hr Hnul Hn Hnone.
  assert (Hfirst : referencing_stmt (catalog srv) t n = Return []).
  { unfold referencing_stmt. rewrite (sql_limit_count_ok n Hn).
    rewrite (referencing_subquery_nil _ _ Hnone). cbn [obind].
    destruct (n =? 0)%Z; [reflexivity|].
    assert (Hname : (if subquery_evaluated (catalog srv) t
                     then sql_scalar (@nil string) else Return None)
                    = Return None)
      by (destruct (subquery_evaluated (catalog srv) t); reflexivity).
    rewrite Hname. cbn [obind]. f_equal.
    replace (sql_where _ _)
      with (@nil (foreign_table_constraints_row * foreign_tables_row)).
    - reflexivity.
    - symmetry. apply no_element_nil. intros x Hx. apply filter_In in Hx.
      destruct Hx as (_ & Hx). discriminate. }
  split; [exact Hfirst|].
  destruct (related_lookups_eval srv n t w Hr) as (w' & Heq & _).
  rewrite Heq. unfold lookups_result. rewrite Hnul, Hfirst. simpl.
  destruct (referenced_stmt (catalog srv) t n); reflexivity.
Qed.

Lemma first_lookup_empty_without_own_foreign_key_witness :
  ready connected_world
  /\ fst (related_lookups sample_server default_n "users" connected_world)
     = Return [].
Proof.
  split; [exact connected_world_ready|].
  destruct (first_lookup_empty_without_own_foreign_key sample_server "users"
              default_n connected_world connected_world_ready)
    as (_ & Hsecond).
  - reflexivity.
  - unfold default_n, bigint_max. lia.
  - intros tc [<-|[]] _ Hname. discriminate Hname.
  - rewrite Hsecond. reflexivity.
Defined.

(** ** Connecting again *)

(** X11.  [connect_with_url] never closes a handle.  When the URL gives
    no connection it raises the driver's error (ProgrammingError for a
    string that is no connection string, OperationalError when the server
    refuses a well-formed one) and the manager keeps the handles it had, so
    a ready manager stays ready.  When the URL gives a connection, the
    manager is ready with a new connection and a new cursor, whatever state
    it was in (never connected, closed, failed transaction); the handles it
    held before are dropped without a [close] call. *)
Theorem connect_with_url_keeps_or_replaces_handles
  (srv : Server) (url : string) (w : World) :
  (valid_dsn srv url = false ->
   connect_with_url srv url w
   = (Raise (ProgrammingError "invalid dsn"), logged (CallConnect url) w)
   /\ (ready w -> ready (snd (connect_with_url srv url w))))
  /\ (valid_dsn srv url = true -> accepts srv url = false ->
      connect_with_url srv url w
      = (Raise (OperationalError "could not connect to server"),
         logged (CallConnect url) w)
      /\ (ready w -> ready (snd (connect_with_url srv url w))))
  /\ (valid_dsn srv url = true -> accepts srv url = true ->
      fst (connect_with_url srv url w) = Return tt
      /\ ready (snd (connect_with_url srv url w))
      /\ calls (snd (connect_with_url srv url w))
         = calls w ++ [CallConnect url; CallCursor]
      /\ ready (snd (connect_with_url srv url (snd (close w)))))
  /\ ~ In CallConnectionClose
         (skipn (length (calls w)) (calls (snd (connect_with_url srv url w))))
  /\ ~ In CallCursorClose
         (skipn (length (calls w)) (calls (snd (connect_with_url srv url w)))).
Proof.
  assert (Hready : forall w0, valid_dsn srv url = true ->
                              accepts srv url = true ->
                              ready (snd (connect_with_url srv url w0))).
  { intros w0 Hv Hacc. rewrite connect_with_url_eq. unfold connects.
    rewrite Hv, Hacc. simpl. do 2 eexists. simpl. repeat split; reflexivity. }
  assert (Hskip : forall (l suffix : list driver_call),
             skipn (length l) (l ++ suffix) = suffix).
  { intros l suffix. induction l as [|x l IH]; [reflexivity | exact IH]. }
  split; [|split; [|split; [|split]]].
  - intro Hv. rewrite connect_with_url_eq. unfold connects, connect_error.
    rewrite Hv. simpl. split; [reflexivity|]. intro Hr. exact Hr.
  - intros Hv Hacc. rewrite connect_with_url_eq. unfold connects, connect_error.
    rewrite Hv, Hacc. simpl. split; [reflexivity|]. intro Hr. exact Hr.
  - intros Hv Hacc. split; [|split; [|split]].
    + rewrite connect_with_url_eq. unfold connects. rewrite Hv, Hacc.
      reflexivity.
    + apply Hready; assumption.
    + rewrite connect_with_url_eq. unfold connects. rewrite Hv, Hacc.
      reflexivity.
    + apply Hready; assumption.
  - rewrite connect_with_url_eq. destruct (connects srv url); simpl;
      rewrite Hskip; simpl; intuition discriminate.
  - rewrite connect_with_url_eq. destruct (connects srv url); simpl;
      rewrite Hskip; simpl; intuition discriminate.
Qed.

Lemma connect_with_url_keeps_or_replaces_handles_witness :
  fst (connect_with_url sample_server "not a url" connected_world)
  = Raise (ProgrammingError "invalid dsn")
  /\ fst (connect_with_url sample_server "postgresql://nowhere/db"
            connected_world)
     = Raise (OperationalError "could not connect to server")
  /\ ready (snd (connect_with_url sample_server "postgresql://nowhere/db"
                   connected_world))
  /\ ready (snd (connect_with_url sample_server sample_url
                   (snd (close connected_world)))).
Proof.
  destruct (connect_with_url_keeps_or_replaces_handles sample_server
              "not a url" connected_world) as (Hbad & _).
  destruct (connect_with_url_keeps_or_replaces_handles sample_server
              "postgresql://nowhere/db" connected_world) as (_ & Hfail & _).
  destruct (connect_with_url_keeps_or_replaces_handles sample_server
              sample_url connected_world) as (_ & _ & Hok & _).
  destruct (Hbad eq_refl) as (Hbad1 & _).
  destruct (Hfail eq_refl eq_refl) as (Hfail1 & Hfail2).
  split; [rewrite Hbad1; reflexivity|].
  split; [rewrite Hfail1; reflexivity|].
  split; [apply Hfail2; exact connected_world_ready|].
  apply (Hok eq_refl eq_refl).
Defined.

(** ** Results of [run_sql] and the state it leaves *)

(** X12.  For a result set without rows [run_sql] returns the text [[]],
    whatever the columns are. *)
Theorem run_sql_of_no_rows
  (cs : pyobj -> string) (fuel : nat) (srv : Server) (sql : string)
  (w : World) (columns : list string) :
  ready w ->
  answer srv sql = QRows columns [] ->
  fst (run_sql cs (S fuel) srv sql w) = Return "[]".
Proof.
  intros Hr Hans.
  rewrite (run_sql_ready cs (S fuel) srv sql w columns [] Hr Hans).
  reflexivity.
Qed.

Lemma fold_related_ready (srv : Server) (n : Z) (tl : list string) :
  forall (acc : list (string * list string)) (w : World),
    ready w ->
    exists w',
      fold_m (fun related_tables_dict table =>
                bind (related_lookups srv n table)
                  (fun related_tables =>
                     ret (dict_set related_tables_dict table related_tables)))
        tl acc w
      = (related_dict (catalog srv) n tl acc, w')
      /\ (is_return (related_dict (catalog srv) n tl acc) = true -> ready w').
Proof.
  induction tl as [|t rest IH]; intros acc w Hr; simpl.
  - exists w. split; [reflexivity | intros _; exact Hr].
  - destruct (related_lookups_eval srv n t w Hr) as (w1 & Heq & Hr1).
    unfold related_dict. simpl.
    destruct (lookups_result (catalog srv) n t) as [r|e] eqn:El.
    + destruct (IH (dict_set acc t r) w1 (Hr1 eq_refl)) as (w' & Heq' & Hr').
      exists w'. unfold bind at 1. unfold bind at 1. rewrite Heq.
      unfold ret at 1. split; [exact Heq' | exact Hr'].
    + exists w1. unfold bind at 1. unfold bind at 1. rewrite Heq.
      split; [reflexivity | discriminate].
Qed.

Lemma run_sql_without_result_set_raises_type_error_aux
  (cs : pyobj -> string) (fuel : nat) (srv : Server) (sql : string)
  (w : World) :
  ready w ->
  answer srv sql = QNoResult ->
  run_sql cs fuel srv sql w
  = (Raise (TypeError "'NoneType' object is not iterable"),
     executed_no_result w)
  /\ ready (executed_no_result w).
Proof.
  intros Hr Hans. split.
  - unfold run_sql.
    rewrite (bind_return _ _ _ _ _
               (cur_execute_ready_no_result srv (StmtRaw sql) w Hr Hans)).
    reflexivity.
  - apply ready_executed_no_result. exact Hr.
Qed.

(** X13.  A query method that ends normally on a ready manager leaves it
    ready, so calls can follow one another on the same manager.  The four
    introspection methods always do; [run_sql] leaves it ready unless the
    server rejects the statement (also when it raises after the statement
    has run); [get_related_tables] does whenever it returns. *)
Theorem queries_leave_the_manager_ready
  (cs : pyobj -> string) (ls : list string -> list string)
  (srv : Server) (w : World) :
  ready w ->
  ready (snd (get_all_table_names srv w))
  /\ (forall t, ready (snd (get_table_definition cs srv t w)))
  /\ ready (snd (get_table_definitions_for_prompt cs srv w))
  /\ ready (snd (get_table_definition_map_for_embeddings cs srv w))
  /\ (forall fuel sql,
        (forall e, answer srv sql <> QError e) ->
        ready (snd (run_sql cs fuel srv sql w)))
  /\ (forall tl n,
        is_return (fst (get_related_tables ls srv tl n w)) = true ->
        ready (snd (get_related_tables ls srv tl n w))).
Proof.
  intro Hr.
  assert (Hr1 := ready_after_query ["foreign_table_name"] w Hr).
  split; [|split; [|split; [|split; [|split]]]].
  - rewrite get_all_table_names_ready by exact Hr. exact Hr1.
  - intro t. rewrite get_table_definition_ready by exact Hr.
    apply ready_after_query. exact Hr.
  - unfold get_table_definitions_for_prompt.
    rewrite (bind_return _ _ _ _ _ (get_all_table_names_ready srv w Hr)).
    destruct (fold_definitions_list cs srv (get_all_tables_stmt (catalog srv))
                [] _ Hr1) as (w' & Hr' & Heq).
    rewrite (bind_return _ _ _ _ _ Heq). exact Hr'.
  - unfold get_table_definition_map_for_embeddings.
    rewrite (bind_return _ _ _ _ _ (get_all_table_names_ready srv w Hr)).
    destruct (fold_definitions_dict cs srv (get_all_tables_stmt (catalog srv))
                [] _ Hr1) as (w' & Hr' & Heq).
    rewrite Heq. exact Hr'.
  - intros fuel sql Hnoerr.
    destruct (answer srv sql) as [e|e| |columns rows] eqn:Hans.
    + unfold run_sql. erewrite bind_raise;
        [|apply cur_execute_ready_refused; [exact Hr | exact Hans]].
      exact Hr.
    + exfalso. exact (Hnoerr e eq_refl).
    + destruct (run_sql_without_result_set_raises_type_error_aux cs fuel srv
                  sql w Hr Hans) as (-> & Hready). exact Hready.
    + rewrite (run_sql_ready cs fuel srv sql w columns rows Hr Hans).
      apply ready_after_query. exact Hr.
  - intros tl n Hret. unfold get_related_tables in *.
    destruct (fold_related_ready srv n tl [] w Hr) as (w' & Heq & Hr').
    unfold bind in *. rewrite Heq in *.
    destruct (related_dict (catalog srv) n tl []); [|discriminate].
    apply Hr'. reflexivity.
Qed.

Lemma run_sql_of_no_rows_witness :
  ready connected_world
  /\ answer quiet_server "SELECT id FROM orders WHERE false" = QRows ["id"] []
  /\ fst (run_sql sample_container_str 1 quiet_server
            "SELECT id FROM orders WHERE false" connected_world) = Return "[]".
Proof.
  split; [exact connected_world_ready|]. split; [reflexivity|].
  apply (run_sql_of_no_rows sample_container_str 0 quiet_server
           "SELECT id FROM orders WHERE false" connected_world ["id"]
           connected_world_ready eq_refl).
Defined.

Lemma queries_leave_the_manager_ready_witness :
  ready connected_world
  /\ ready (snd (get_table_definitions_for_prompt sample_container_str
                   sample_server connected_world))
  /\ ready (snd (get_related_tables sample_list_of_set sample_server
                   ["orders"; "users"] default_n connected_world)).
Proof.
  split; [exact connected_world_ready|].
  destruct (queries_leave_the_manager_ready sample_container_str
              sample_list_of_set sample_server connected_world
              connected_world_ready) as (_ & _ & Hprompt & _ & _ & Hrel).
  split; [exact Hprompt|]. apply Hrel. reflexivity.
Defined.

(** ** The table list as a set *)

(** X14.  The result of [get_related_tables] depends on which tables are
    in the list, not on their order or on repetitions: for two lists with
    the same elements, on ready managers, when one call returns the other
    returns too, with the same names up to their order. *)
Theorem get_related_tables_ignores_order_and_repetition
  (ls : list string -> list string)
  (Hset : forall l, Permutation (ls l) (nodup string_dec l))
  (srv : Server) (n : Z) (tl1 tl2 : list string) (w1 w2 : World)
  (res1 : list string) :
  ready w1 -> ready w2 ->
  (forall t, In t tl1 <-> In t tl2) ->
  fst (get_related_tables ls srv tl1 n w1) = Return res1 ->
  exists res2,
    fst (get_related_tables ls srv tl2 n w2) = Return res2
    /\ Permutation res1 res2.
Proof.
  intros Hr1 Hr2 Hsame Hres1.
  rewrite get_related_tables_eval in Hres1 by exact Hr1.
  rewrite get_related_tables_eval by exact Hr2.
  destruct (related_dict (catalog srv) n tl1 []) as [d1|] eqn:Hd1;
    [|discriminate].
  simpl in Hres1. injection Hres1 as <-.
  destruct (proj2 (related_dict_returns_iff (catalog srv) n tl2 [])) as (d2 & Hd2).
  { intros t Ht. apply Hsame in Ht.
    apply (proj1 (related_dict_returns_iff (catalog srv) n tl1 [])); eauto. }
  rewrite Hd2. simpl. eexists. split; [reflexivity|].
  apply NoDup_Permutation.
  - eapply Permutation_NoDup; [symmetry; apply Hset | apply NoDup_nodup].
  - eapply Permutation_NoDup; [symmetry; apply Hset | apply NoDup_nodup].
  - intro x. rewrite (in_related_result ls Hset _ _ _ _ Hd1).
    rewrite (in_related_result ls Hset _ _ _ _ Hd2).
    split; intros (t & v & Ht & Hl & Hx); exists t, v;
      (split; [apply Hsame; exact Ht | split; assumption]).
Qed.

Lemma get_related_tables_ignores_order_and_repetition_witness :
  exists res2,
    fst (get_related_tables sample_list_of_set sample_server
           ["users"; "orders"; "users"] default_n connected_world)
    = Return res2
    /\ Permutation ["orders"; "users"] res2.
Proof.
  assert (Hset : forall l, Permutation (sample_list_of_set l) (nodup string_dec l))
    by (intro l; apply Permutation_refl).
  apply (get_related_tables_ignores_order_and_repetition sample_list_of_set
           Hset sample_server default_n ["orders"; "users"]
           ["users"; "orders"; "users"] connected_world connected_world
           ["orders"; "users"] connected_world_ready connected_world_ready).
  - intro t. simpl. tauto.
  - reflexivity.
Defined.

(** ** Order of the introspected rows *)

Lemma string_compare_refl (s : string) : String.compare s s = Eq.
Proof.
  pose proof (String.compare_antisym s s) as H.
  destruct (String.compare s s); simpl in H; congruence.
Qed.

Lemma def_row_le_total (x y : def_row) :
  def_row_le x y = false -> def_row_le y x = true.
Proof.
  unfold def_row_le, string_ltb.
  rewrite (String.compare_antisym (schema_name x) (schema_name y)).
  rewrite (String.compare_antisym (table_name x) (table_name y)).
  destruct (String.compare (schema_name y) (schema_name x)) eqn:Es; simpl;
    try discriminate; try reflexivity.
  apply String.compare_eq_iff in Es. rewrite Es, String.eqb_refl. simpl.
  destruct (String.compare (table_name y) (table_name x)) eqn:Et; simpl;
    try discriminate; try reflexivity.
  apply String.compare_eq_iff in Et. rewrite Et, String.eqb_refl. simpl.
  intro H. apply Z.leb_gt in H. apply Z.leb_le. lia.
Qed.

Lemma sql_insert_sorted {A} (le : A -> A -> bool)
  (Htotal : forall x y, le x y = false -> le y x = true) (x : A) (l : list A) :
  Sorted (fun a b => le a b = true) l ->
  Sorted (fun a b => le a b = true) (sql_insert le x l).
Proof.
  induction l as [|y rest IH]; intro Hs; simpl.
  - repeat constructor.
  - destruct (le x y) eqn:E.
    + constructor; [exact Hs | constructor; exact E].
    + inversion Hs as [|? ? Hrest Hhd]; subst.
      constructor; [apply IH; exact Hrest|].
      destruct rest as [|z rest']; simpl.
      * constructor. apply Htotal. exact E.
      * destruct (le x z); constructor.
        -- apply Htotal. exact E.
        -- inversion Hhd; assumption.
Qed.

(** X15.  The rows [get_table_definition] reads come ordered as the
    statement's ORDER BY says: each row is followed by a row of the same or
    a later table (by name), and within a table by a column of the same or
    a higher attribute number.  So the column lines of the definition text
    stand table after table, each table's columns in attribute order. *)
Theorem get_def_stmt_rows_are_ordered (c : Catalog) (args : list pyobj) :
  Sorted (fun x y => def_row_le x y = true) (get_def_stmt c args)
  /\ (forall x y,
        def_row_le x y = true -> schema_name x = schema_name y ->
        string_ltb (table_name x) (table_name y) = true
        \/ (table_name x = table_name y
            /\ (column_attnum x <= column_attnum y)%Z)).
Proof.
  split.
  - unfold get_def_stmt, sql_order_by.
    induction (map (get_def_select c) (sql_where get_def_where (get_def_from c)))
      as [|r rest IH]; simpl.
    + constructor.
    + apply sql_insert_sorted; [exact def_row_le_total | exact IH].
  - intros x y Hle Hs. unfold def_row_le in Hle. unfold string_ltb in *.
    rewrite Hs, string_compare_refl, String.eqb_refl in Hle. simpl in Hle.
    apply orb_prop in Hle. destruct Hle as [Hlt|Heq]; [left; exact Hlt|].
    apply andb_prop in Heq. destruct Heq as (Ht & Ha).
    right. split; [apply String.eqb_eq; exact Ht | apply Z.leb_le; exact Ha].
Qed.

(** ** What is left after a scope *)

Lemma all_closed_closed_world (w : World) : all_closed (closed_world w).
Proof.
  unfold all_closed, closed_world. simpl. split.
  - intros k Hk. destruct (conn (self w)); [|discriminate].
    injection Hk as <-. reflexivity.
  - intros c Hc. destruct (cur (self w)); [|discriminate].
    injection Hc as <-. reflexivity.
Qed.

(** X16.  After [close], after [__exit__] and after a scope, whether its
    body returned or raised, no handle on the manager is open: whatever the
    body connected has been closed.  A scope never ends normally after its
    body raised. *)
Theorem no_open_handle_after_close_or_scope (w : World) :
  all_closed (snd (close w))
  /\ (forall e, all_closed (snd (__exit__ e w)))
  /\ (forall A (body : PostgresManager -> M A),
        all_closed (snd (with_scope body w))
        /\ fst (with_scope body w) <> Return None).
Proof.
  split; [|split].
  - rewrite close_eq. apply all_closed_closed_world.
  - intro e. rewrite exit_eq. apply all_closed_closed_world.
  - intros A body. unfold with_scope, __enter__, get_self.
    destruct (body (self w) w) as [[v|e] w2]; rewrite exit_eq; simpl;
      (split; [apply all_closed_closed_world | discriminate]).
Qed.

Lemma no_open_handle_after_close_or_scope_witness :
  all_closed
    (snd (with_scope
            (fun _ => bind (connect_with_url sample_server sample_url)
                        (fun _ => get_all_table_names sample_server))
            new_world)).
Proof.
  destruct (no_open_handle_after_close_or_scope new_world) as (_ & _ & Hscope).
  apply Hscope.
Defined.

(** ** The shape of the JSON text *)

Lemma iterencode_list_shape (enc : nat -> pyobj -> outcome string)
  (lvl : nat) (lst : list pyobj) (text : string) :
  iterencode_list enc lvl lst = Return text ->
  begins_with text "[" /\ ends_with text "]".
Proof.
  unfold iterencode_list. destruct lst as [|x rest].
  - intro H. injection H as <-. split; [exists "]" | exists "["]; reflexivity.
  - destruct (omap (enc (S lvl)) (x :: rest)) as [chunks|]; [|discriminate].
    simpl. intro H. injection H as <-. split.
    + eexists. reflexivity.
    + exists ("[" ++ newline_indent (S lvl)
              ++ join ("," ++ newline_indent (S lvl)) chunks
              ++ newline_indent lvl)%string.
      rewrite !append_assoc. reflexivity.
Qed.

(** X17.  For every result set, with fuel above the nesting depth,
    [run_sql] returns a text that begins with [[] and ends with []]: a JSON
    array, also for a single row and for no row. *)
Theorem run_sql_text_is_an_array
  (cs : pyobj -> string) (fuel : nat) (srv : Server) (sql : string)
  (w : World) (columns : list string) (rows : list (list pyobj)) :
  ready w ->
  answer srv sql = QRows columns rows ->
  depth (dumps_argument columns rows) + 2 <= fuel ->
  exists text,
    fst (run_sql cs fuel srv sql w) = Return text
    /\ begins_with text "[" /\ ends_with text "]".
Proof.
  intros Hr Hans Hd.
  destruct (iterencode_total cs fuel 0 _ Hd) as (text & Ht).
  exists text. rewrite (run_sql_ready cs fuel srv sql w columns rows Hr Hans).
  split; [exact Ht|].
  destruct fuel as [|k]; [lia|].
  unfold dumps_argument in Ht. cbn [iterencode] in Ht.
  exact (iterencode_list_shape _ _ _ _ Ht).
Qed.

Lemma run_sql_text_is_an_array_witness :
  exists text,
    fst (run_sql sample_container_str 5 sample_server
           "SELECT created, price FROM orders" connected_world) = Return text
    /\ begins_with text "[" /\ ends_with text "]".
Proof.
  apply (run_sql_text_is_an_array sample_container_str 5 sample_server
           "SELECT created, price FROM orders" connected_world
           ["created"; "price"]
           [[PDatetime sample_datetime; PObject "Decimal" "9.50"]]
           connected_world_ready eq_refl).
  simpl. lia.
Defined.

(** ** How many statements a call sends *)

Lemma after_query_calls (columns : list string) (w : World) :
  calls (after_query columns w) = calls w ++ statement_calls.
Proof. reflexivity. Qed.

Lemma fold_definitions_calls {S} cs (srv : Server)
  (step : S -> string -> string -> S) (names : list string) :
  forall (acc : S) (w : World),
    ready w ->
    exists acc' w',
      fold_m (fun definitions table_name =>
                bind (get_table_definition cs srv table_name)
                  (fun d => ret (step definitions table_name d)))
        names acc w
      = (Return acc', w')
      /\ calls w' = calls w ++ flat_map (fun _ => statement_calls) names.
Proof.
  induction names as [|t rest IH]; intros acc w Hr; simpl.
  - exists acc, w. rewrite app_nil_r. split; reflexivity.
  - unfold bind at 1. unfold bind at 1.
    rewrite get_table_definition_ready by exact Hr. unfold ret at 1.
    destruct (IH (step acc t (definition_text srv t)) _
                (ready_after_query get_def_columns w Hr))
      as (acc' & w' & Heq & Hcalls).
    exists acc', w'. split; [exact Heq|].
    rewrite Hcalls, after_query_calls, <- app_assoc. reflexivity.
Qed.

Lemma statement_calls_length {A} (l : list A) :
  length (flat_map (fun _ => statement_calls) l) = 2 * length l.
Proof. induction l as [|x rest IH]; simpl; lia. Qed.

(** X18.  On a ready manager [get_table_definitions_for_prompt] and
    [get_table_definition_map_for_embeddings] send one statement for the
    list of names and then one more for each name: with [k] names the
    driver sees [k + 1] executes, each followed by its fetch. *)
Theorem definitions_cost_one_statement_per_table
  (cs : pyobj -> string) (srv : Server) (w : World) :
  ready w ->
  let names := get_all_tables_stmt (catalog srv) in
  let sent := statement_calls ++ flat_map (fun _ => statement_calls) names in
  calls (snd (get_table_definitions_for_prompt cs srv w)) = calls w ++ sent
  /\ calls (snd (get_table_definition_map_for_embeddings cs srv w))
     = calls w ++ sent
  /\ length sent = 2 * (length names + 1).
Proof.
  intros Hr names sent.
  assert (Hr1 := ready_after_query ["foreign_table_name"] w Hr).
  split; [|split].
  - unfold get_table_definitions_for_prompt.
    rewrite (bind_return _ _ _ _ _ (get_all_table_names_ready srv w Hr)).
    destruct (fold_definitions_calls cs srv (fun defs _ d => defs ++ [d])
                names [] _ Hr1) as (acc' & w' & Heq & Hcalls).
    fold names. rewrite (bind_return _ _ _ _ _ Heq). simpl.
    rewrite Hcalls, after_query_calls, <- app_assoc. reflexivity.
  - unfold get_table_definition_map_for_embeddings.
    rewrite (bind_return _ _ _ _ _ (get_all_table_names_ready srv w Hr)).
    destruct (fold_definitions_calls cs srv (fun defs t d => dict_set defs t d)
                names [] _ Hr1) as (acc' & w' & Heq & Hcalls).
    fold names. rewrite Heq. simpl.
    rewrite Hcalls, after_query_calls, <- app_assoc. reflexivity.
  - unfold sent. rewrite length_app, statement_calls_length. simpl. lia.
Qed.

Lemma definitions_cost_one_statement_per_table_witness :
  ready connected_world
  /\ calls (snd (get_table_definitions_for_prompt sample_container_str
                   sample_server connected_world))
     = calls connected_world
       ++ [CallExecute; CallFetchall; CallExecute; CallFetchall;
           CallExecute; CallFetchall].
Proof.
  split; [exact connected_world_ready|].
  destruct (definitions_cost_one_statement_per_table sample_container_str
              sample_server connected_world connected_world_ready)
    as (Hprompt & _).
  rewrite Hprompt. reflexivity.
Defined.
